(** * jc-backend: the crawler worker ([src/components/crawler/crawler.worker.js])

    A shallow embedding of [CrawlerWorker.archive], [addSetItem],
    [toRecentListing], [launchCrawler], [run], the ['crawled'] listener and
    the [SIGUSR2] listener, over a model of the Redis commands the file
    issues, followed by the properties of the worker.

    The store is one keyspace of typed values, and a command against a
    key of the wrong type fails as Redis makes it fail. The client is the
    one the calls are written for ([redis.multi()], [{ EX: 30 }],
    upper-case commands): a command of a queue returns the queue, an
    argument beyond those a command declares is dropped, [exec] rejects
    when a queued command failed. The crawler, the page store and the
    metadata parser are outside the file: a crawler is its [running] flag
    and its queue of requests, the two services are functions that answer
    or reject. The worker state is explicit: the store, [this.crawlers],
    and the crawler objects. An asynchronous function is a computation on
    that state which may throw; [run], which [archive] calls without
    waiting for it, is cut at its [await] into [run] and [run_resume].
    In the transition system of the worker calls do not overlap: one
    runs up to its end (for [run], up to the [await] of [crawler.run])
    before the next starts. Calls that do overlap are treated apart, on
    [archive] cut at its [await]s ([archive_async]). Time does not pass
    by itself: the expiry of a key is a step of its own. *)

From Stdlib Require Import ZArith Ascii String.
From stdpp Require Import base gmap strings list fin_maps sorting.

Open Scope string_scope.
Open Scope list_scope.
Open Scope Z_scope.
Set Warnings "-register-all".

(** ** Errors of the JavaScript side *)

Inductive js_error :=
| WRONGTYPE        (* Redis: operation against a key holding the wrong kind of value *)
| SyntaxError      (* JSON.parse *)
| TypeError
| Rejected.        (* an external collaborator rejected its promise *)

Inductive result (A : Type) :=
| Ok (a : A)
| Throw (e : js_error).
Arguments Ok {A} a.
Arguments Throw {A} e.

(** ** The shared store *)

Module Redis.

(** One keyspace; a key holds a string (with its optional expiry in
    seconds), a hash, a sorted set or a set. *)
Inductive value :=
| VString (v : string) (ex : option Z)
| VHash (h : gmap string string)
| VZSet (z : gmap string Z)
| VSet (s : gset string).

Abbreviation db := (gmap string value).

(** Redis removes an aggregate key when its last member goes. *)
Definition put_hash (k : string) (h : gmap string string) (d : db) : db :=
  if decide (h = ∅) then delete k d else <[k := VHash h]> d.
Definition put_zset (k : string) (z : gmap string Z) (d : db) : db :=
  if decide (z = ∅) then delete k d else <[k := VZSet z]> d.
Definition put_set (k : string) (s : gset string) (d : db) : db :=
  if decide (s = ∅) then delete k d else <[k := VSet s]> d.

(** *** Strings and keys *)

Definition GET (k : string) (d : db) : result (option string) :=
  match d !! k with
  | None => Ok None
  | Some (VString v _) => Ok (Some v)
  | Some _ => Throw WRONGTYPE
  end.

(** [SET key value { EX: seconds }] overwrites whatever the key held. *)
Definition SET (k v : string) (ex : option Z) (d : db) : db :=
  <[k := VString v ex]> d.

Definition DEL (k : string) (d : db) : db := delete k d.

(** Glob patterns of [KEYS]: [*] matches any run of characters, [?] one
    character, anything else itself. *)
Fixpoint glob (p s : list ascii) : bool :=
  match p with
  | [] => match s with [] => true | _ => false end
  | c :: p' =>
      if Ascii.eqb c "*"%char then
        (fix star (s : list ascii) : bool :=
           glob p' s || match s with [] => false | _ :: s' => star s' end) s
      else
        match s with
        | [] => false
        | x :: s' => (Ascii.eqb c "?"%char || Ascii.eqb c x) && glob p' s'
        end
  end.

Definition matches (pattern key : string) : bool :=
  glob (list_ascii_of_string pattern) (list_ascii_of_string key).

Definition KEYS (pattern : string) (d : db) : list string :=
  filter (λ k, matches pattern k = true) (map_to_list d).*1.

(** *** Hashes *)

Definition hash_at (k : string) (d : db) : result (gmap string string) :=
  match d !! k with
  | None => Ok ∅
  | Some (VHash h) => Ok h
  | Some _ => Throw WRONGTYPE
  end.

Definition HSET (k f v : string) (d : db) : result db :=
  match hash_at k d with
  | Ok h => Ok (<[k := VHash (<[f := v]> h)]> d)
  | Throw e => Throw e
  end.

Definition HGET (k f : string) (d : db) : result (option string) :=
  match hash_at k d with
  | Ok h => Ok (h !! f)
  | Throw e => Throw e
  end.

(** [HVALS key] and [HKEYS key] answer with every value, every field, of
    the hash at [key]. *)
Definition HVALS (k : string) (d : db) : result (list string) :=
  match hash_at k d with
  | Ok h => Ok (map_to_list h).*2
  | Throw e => Throw e
  end.

Definition HKEYS (k : string) (d : db) : result (list string) :=
  match hash_at k d with
  | Ok h => Ok (map_to_list h).*1
  | Throw e => Throw e
  end.

Definition HDEL (k f : string) (d : db) : result db :=
  match hash_at k d with
  | Ok h => Ok (put_hash k (delete f h) d)
  | Throw e => Throw e
  end.

(** *** Sorted sets (scores are the integers [ZINCRBY key 1] produces) *)

Definition zset_at (k : string) (d : db) : result (gmap string Z) :=
  match d !! k with
  | None => Ok ∅
  | Some (VZSet z) => Ok z
  | Some _ => Throw WRONGTYPE
  end.

Definition ZSCORE (k m : string) (d : db) : result (option Z) :=
  match zset_at k d with
  | Ok z => Ok (z !! m)
  | Throw e => Throw e
  end.

Definition ZINCRBY (k : string) (incr : Z) (m : string) (d : db) : result db :=
  match zset_at k d with
  | Ok z => Ok (<[k := VZSet (<[m := default 0 (z !! m) + incr]> z)]> d)
  | Throw e => Throw e
  end.

(** Members are ranked by score, ties by member. *)
Definition rank_le (a b : string * Z) : Prop :=
  a.2 < b.2 ∨ (a.2 = b.2 ∧ String.leb a.1 b.1 = true).
#[global] Instance rank_le_dec a b : Decision (rank_le a b).
Proof. unfold rank_le. apply _. Defined.

Definition ranked (z : gmap string Z) : list string :=
  (merge_sort rank_le (map_to_list z)).*1.

(** A negative index counts from the highest rank. *)
Definition rank_index (len i : Z) : Z := if i <? 0 then len + i else i.

Definition ZREMRANGEBYRANK (k : string) (start stop : Z) (d : db) : result db :=
  match zset_at k d with
  | Ok z =>
      let len := Z.of_nat (length (ranked z)) in
      let first := Z.max 0 (rank_index len start) in
      let last := Z.min (len - 1) (rank_index len stop) in
      let doomed := take (Z.to_nat (last - first + 1)) (drop (Z.to_nat first) (ranked z)) in
      Ok (put_zset k (foldr delete z doomed) d)
  | Throw e => Throw e
  end.

(** *** Sets *)

Definition set_at (k : string) (d : db) : result (gset string) :=
  match d !! k with
  | None => Ok ∅
  | Some (VSet s) => Ok s
  | Some _ => Throw WRONGTYPE
  end.

Definition SCARD (k : string) (d : db) : result Z :=
  match set_at k d with
  | Ok s => Ok (Z.of_nat (size s))
  | Throw e => Throw e
  end.

Definition SADD (k m : string) (d : db) : result db :=
  match set_at k d with
  | Ok s => Ok (<[k := VSet ({[m]} ∪ s)]> d)
  | Throw e => Throw e
  end.

(** [SPOP] removes a member of the server's choosing; here the first of
    [elements]. *)
Definition SPOP (k : string) (d : db) : result (option string * db) :=
  match set_at k d with
  | Ok s =>
      match elements s with
      | [] => Ok (None, d)
      | m :: _ => Ok (Some m, put_set k (s ∖ {[m]}) d)
      end
  | Throw e => Throw e
  end.

(** *** Queued commands ([redis.multi()] ... [exec()])

    A queued command carries the arguments the caller wrote; the client
    builds the wire command from the leading ones it declares (one key
    for [HVALS], [HKEYS] and [DEL]) and the surplus never reaches the
    server. *)
Inductive command :=
| cHSET (k f v : string)
| cHVALS (k : string) (surplus : list string)
| cHKEYS (k : string) (surplus : list string)
| cSCARD (k : string)
| cSADD (k m : string)
| cSPOP (k : string)
| cDEL (k : string) (surplus : list string).

Inductive reply :=
| RInt (n : Z)
| RBulk (s : option string)
| RArray (l : list string)
| RError.

Definition run_command (c : command) (d : db) : reply * db :=
  match c with
  | cHSET k f v =>
      match hash_at k d, HSET k f v d with
      | Ok h, Ok d' => (RInt (if decide (is_Some (h !! f)) then 0 else 1), d')
      | _, _ => (RError, d)
      end
  | cHVALS k _ =>
      match HVALS k d with Ok l => (RArray l, d) | Throw _ => (RError, d) end
  | cHKEYS k _ =>
      match HKEYS k d with Ok l => (RArray l, d) | Throw _ => (RError, d) end
  | cSCARD k =>
      match SCARD k d with Ok n => (RInt n, d) | Throw _ => (RError, d) end
  | cSADD k m =>
      match set_at k d, SADD k m d with
      | Ok s, Ok d' => (RInt (if decide (m ∈ s) then 0 else 1), d')
      | _, _ => (RError, d)
      end
  | cSPOP k =>
      match SPOP k d with Ok (m, d') => (RBulk m, d') | Throw _ => (RError, d) end
  | cDEL k _ =>
      (RInt (if decide (is_Some (d !! k)) then 1 else 0), DEL k d)
  end.

(** [EXEC]: every queued command runs, in order; one that fails leaves an
    error in its slot and does not stop the others. *)
Fixpoint exec (multi : list command) (d : db) : list reply * db :=
  match multi with
  | [] => ([], d)
  | c :: rest =>
      let '(r, d1) := run_command c d in
      let '(rs, d2) := exec rest d1 in
      (r :: rs, d2)
  end.

End Redis.

(** ** JavaScript values the worker computes with *)

(** *** JSON documents and [JSON.stringify] *)

Inductive json :=
| JNull
| JNum (n : Z)
| JStr (s : string)
| JArr (items : list json)
| JObj (fields : list (string * json)).

Definition dquote : string := String (ascii_of_nat 34) EmptyString.
Definition backslash : string := String (ascii_of_nat 92) EmptyString.

Definition hex_digit (n : nat) : string :=
  nth n ["0"; "1"; "2"; "3"; "4"; "5"; "6"; "7"; "8"; "9"; "a"; "b"; "c"; "d"; "e"; "f"] "0".

(** The escapes of [JSON.stringify]: the quote, the backslash and the
    control characters. *)
Definition escape_char (c : ascii) : string :=
  let n := nat_of_ascii c in
  if (n =? 34)%nat then backslash +:+ dquote
  else if (n =? 92)%nat then backslash +:+ backslash
  else if (n =? 8)%nat then backslash +:+ "b"
  else if (n =? 9)%nat then backslash +:+ "t"
  else if (n =? 10)%nat then backslash +:+ "n"
  else if (n =? 12)%nat then backslash +:+ "f"
  else if (n =? 13)%nat then backslash +:+ "r"
  else if (n <? 32)%nat then backslash +:+ "u00" +:+ hex_digit (n / 16) +:+ hex_digit (n mod 16)
  else String c EmptyString.

Fixpoint escape (s : string) : string :=
  match s with
  | EmptyString => EmptyString
  | String c r => escape_char c +:+ escape r
  end.

Definition quoted (s : string) : string := dquote +:+ escape s +:+ dquote.

Fixpoint digits (fuel : nat) (n : N) (acc : string) : string :=
  match fuel with
  | O => acc
  | S fuel' =>
      let acc' := String (ascii_of_N (48 + n mod 10)) acc in
      if (n / 10 =? 0)%N then acc' else digits fuel' (n / 10)%N acc'
  end.

Definition decimal (n : Z) : string :=
  let d := digits (S (N.to_nat (N.log2 (Z.abs_N n)))) (Z.abs_N n) EmptyString in
  if n <? 0 then "-" +:+ d else d.

Fixpoint JSON_stringify (j : json) : string :=
  match j with
  | JNull => "null"
  | JNum n => decimal n
  | JStr s => quoted s
  | JArr items =>
      "[" +:+ (fix go (l : list json) : string :=
                match l with
                | [] => ""
                | x :: r => JSON_stringify x +:+ match r with [] => "" | _ => "," +:+ go r end
                end) items +:+ "]"
  | JObj fields =>
      "{" +:+ (fix go (l : list (string * json)) : string :=
                match l with
                | [] => ""
                | (k, x) :: r =>
                    quoted k +:+ ":" +:+ JSON_stringify x
                    +:+ match r with [] => "" | _ => "," +:+ go r end
                end) fields +:+ "}"
  end.

(** *** Numbers, and what is not a number *)

Inductive jsval :=
| Num (n : Z)
| NaN
| MultiObject.     (* the command queue [redis.multi()] returned *)

(** [ToNumber]: an object that is not a wrapper of a primitive becomes
    [NaN]. *)
Definition ToNumber (v : jsval) : option Z :=
  match v with
  | Num n => Some n
  | NaN | MultiObject => None
  end.

(** [a < b]: false as soon as one side is [NaN]. *)
Definition js_lt (a b : jsval) : bool :=
  match ToNumber a, ToNumber b with
  | Some x, Some y => x <? y
  | _, _ => false
  end.

Definition js_sub (a b : jsval) : jsval :=
  match ToNumber a, ToNumber b with
  | Some x, Some y => Num (x - y)
  | _, _ => NaN
  end.

(** [a + b] on numbers (the left operand of the one [+] in the file is
    the result of a subtraction, hence a number or [NaN]). *)
Definition js_add (a b : jsval) : jsval :=
  match ToNumber a, ToNumber b with
  | Some x, Some y => Num (x + y)
  | _, _ => NaN
  end.

(** *** Strings and arrays *)

(** [s.split(sep)] for a one-character separator. *)
Fixpoint split (sep : ascii) (s : string) : list string :=
  match s with
  | EmptyString => [EmptyString]
  | String c r =>
      if Ascii.eqb c sep then EmptyString :: split sep r
      else match split sep r with
           | h :: t => String c h :: t
           | [] => [String c EmptyString]
           end
  end.

(** A template literal renders [undefined] by its name. *)
Definition interpolate (v : option string) : string := default "undefined" v.

(** [Array.from(new Set(l))]: the members in the order of their first
    occurrence. *)
Definition Array_from_Set (l : list string) : list string :=
  foldl (λ (seen : list string) (x : string),
           if decide (x ∈ seen) then seen else seen ++ [x]) [] l.

(** Truthiness of a string-or-null, of a number-or-null. *)
Definition truthy_string (v : option string) : bool :=
  match v with
  | None => false
  | Some s => negb (String.eqb s "")
  end.

Definition truthy_number (v : option Z) : bool :=
  match v with
  | None => false
  | Some n => negb (n =? 0)
  end.

(** ** The worker's data *)

(** The [options] object of a request. *)
Record Options := {
  listingURL : string;
  listingUUID : string;
  clientId : string;
  listingPid : string;
}.

(** What [run] hands to the crawler: [{ url, userData: { options } }];
    [url] is [undefined] when the entry it was cut from has no space. *)
Record Request := {
  url : option string;
  userData : Options;
}.

(** A [PlaywrightCrawler], as far as the worker looks at it. *)
Record Crawler := {
  running : bool;
  requestQueue : list Request;
}.

(** The payload of a ['crawled'] event:
    [{ url: request.url, html, imageUrls, ...options }]. *)
Record Payload := {
  crawled_url : option string;
  html : string;
  imageUrls : list string;
  crawled_options : Options;
}.

Inductive event :=
| archived (record : json).

(** The store, [this.crawlers] (tenant to crawler object; tenant ids are
    not names of members of [Object.prototype]) and the crawler objects,
    addressed by their position in [heap]. *)
Record World := {
  redis : Redis.db;
  crawlers : gmap string nat;
  heap : list Crawler;
}.

Definition with_redis (d : Redis.db) (w : World) : World :=
  {| redis := d; crawlers := crawlers w; heap := heap w |}.
Definition with_crawlers (r : gmap string nat) (w : World) : World :=
  {| redis := redis w; crawlers := r; heap := heap w |}.
Definition with_heap (h : list Crawler) (w : World) : World :=
  {| redis := redis w; crawlers := crawlers w; heap := h |}.

(** [JSON.parse] of a tenant's configuration, as far as [archive] reads it:
    [null], or a value whose [crawlerLimit] is missing or an integer. *)
Inductive UserConfig :=
| ConfigNull
| ConfigObject (crawlerLimit : option Z).

(** ** Computations: a world, and a result or a thrown error

    What a computation did to the world before it threw stays done. *)

Definition M (A : Type) : Type := World → result A * World.

#[global] Instance M_ret : MRet M := λ A a w, (Ok a, w).
#[global] Instance M_bind : MBind M := λ A B k m w,
  match m w with
  | (Ok a, w') => k a w'
  | (Throw e, w') => (Throw e, w')
  end.

Definition throw {A} (e : js_error) : M A := λ w, (Throw e, w).

Definition lift {A} (r : result A) : M A := λ w, (r, w).

(** [await redis.CMD(...)] for a command that reads. *)
Definition await {A} (cmd : Redis.db → result A) : M A :=
  λ w, (cmd (redis w), w).

(** [await redis.CMD(...)] for a command that writes. *)
Definition await_write (cmd : Redis.db → result Redis.db) : M unit :=
  λ w, match cmd (redis w) with
       | Ok d => (Ok (), with_redis d w)
       | Throw e => (Throw e, w)
       end.

(** [redis.CMD(...)] with its promise dropped: the command is sent, a
    failure is nobody's to catch. *)
Definition detached (cmd : Redis.db → result Redis.db) : M unit :=
  λ w, match cmd (redis w) with
       | Ok d => (Ok (), with_redis d w)
       | Throw _ => (Ok (), w)
       end.

Definition is_error (r : Redis.reply) : bool :=
  match r with Redis.RError => true | _ => false end.

(** [await multi.exec()]: rejects when a queued command failed. *)
Definition multi_exec (multi : list Redis.command) : M (list Redis.reply) :=
  λ w, let '(replies, d) := Redis.exec multi (redis w) in
       (if existsb is_error replies then Throw WRONGTYPE else Ok replies,
        with_redis d w).

(** [multi.exec()] with its promise dropped. *)
Definition multi_exec_detached (multi : list Redis.command) : M unit :=
  λ w, (Ok (), with_redis (Redis.exec multi (redis w)).2 w).

(** [[...x]] and [x.map(...)] need [x] to be an array. *)
Definition as_array (r : option Redis.reply) : M (list string) :=
  match r with
  | Some (Redis.RArray l) => mret l
  | _ => throw TypeError
  end.

(** [l.map(x => redis.CMD(x))], promises dropped. *)
Fixpoint detached_each {A} (cmd : A → Redis.db → result Redis.db) (l : list A) : M unit :=
  match l with
  | [] => mret ()
  | x :: r => detached (cmd x) ;; detached_each cmd r
  end.

(** [crawlers[clientId]] and [crawlers[clientId] = crawler]. *)
Definition crawler_of (clientId : string) : M (option nat) :=
  λ w, (Ok (crawlers w !! clientId), w).
Definition set_crawler (clientId : string) (crawler : nat) : M unit :=
  λ w, (Ok (), with_crawlers (<[clientId := crawler]> (crawlers w)) w).

(** [x || d] on a number-or-undefined. *)
Definition js_or (x : option Z) (d : Z) : Z :=
  if truthy_number x then default d x else d.

(** [for (let i = 0; i < bound; i++) body] *)
Fixpoint for_loop {A} (fuel : nat) (i : Z) (bound : jsval) (body : A → A) (a : A) : A :=
  match fuel with
  | O => a
  | S fuel' =>
      if js_lt (Num i) bound then for_loop fuel' (i + 1) bound body (body a) else a
  end.

Definition for_from_zero {A} (bound : jsval) (body : A → A) (a : A) : A :=
  for_loop (Z.to_nat (default 0 (ToNumber bound))) 0 bound body a.

(** ** The worker's code *)

Definition lock_key (uuid : string) : string := "running-" +:+ uuid.

(** What the last call of [archive], [run(crawlers[clientId], urls,
    options)], has reached when [archive] returns: through its [finally],
    or waiting for [crawler.run] to settle. *)
Inductive RunStatus :=
| Settled
| Awaiting (crawler : nat) (uuids : list (option string)).

(** How [crawler.run] settles. *)
Inductive RunResult :=
| Completed
| Failed.

(** What a call of [archive] did ([archive] itself returns nothing). *)
Inductive Outcome :=
| Queued
| Dispatched (crawler : option nat) (urls : list string) (status : RunStatus).

(** [multi.SCARD(key)] queues the command and, like every command of a
    queue, returns the queue. *)
Definition multi_SCARD (multi : list Redis.command) (key : string)
  : list Redis.command * jsval :=
  (multi ++ [Redis.cSCARD key], MultiObject).

(** [addSetItem(multi, setKey, item, maxSize)] *)
Definition addSetItem (multi : list Redis.command) (setKey item : string) (maxSize : Z)
  : list Redis.command :=
  let '(multi, currentSize) := multi_SCARD multi setKey in
  if js_lt currentSize (Num maxSize) then
    multi ++ [Redis.cSADD setKey item]
  else
    let membersToRemove := js_add (js_sub currentSize (Num maxSize)) (Num 1) in
    let multi := for_from_zero membersToRemove (λ m, m ++ [Redis.cSPOP setKey]) multi in
    multi ++ [Redis.cSADD setKey item].

(** [new PlaywrightCrawler({...})], then [redis.ZINCRBY('crawlers', 1,
    clientId)]. *)
Definition launchCrawler (clientId : string) : M nat :=
  λ w, let crawler := length (heap w) in
       let w1 := with_heap (heap w ++ [{| running := false; requestQueue := [] |}]) w in
       (detached (Redis.ZINCRBY "crawlers" 1 clientId) ;; mret crawler) w1.

(** The [finally] of [run]. *)
Definition release (uuids : list (option string)) : M unit :=
  multi_exec_detached ((λ uuid, Redis.cDEL ("running-" +:+ interpolate uuid) []) <$> uuids).

(** [run(crawler, urlMap, options)] up to its [await]. A crawler that is
    [undefined] makes [crawler.running] throw inside the [try]. *)
Definition run (crawler : option nat) (urlMap : list string) (options : Options)
  : M RunStatus :=
  let urls := (λ m, split " " m !! 1%nat) <$> urlMap in
  let uuids := (λ m, split " " m !! 0%nat) <$> urlMap in
  let requests := (λ url, {| url := url; userData := options |}) <$> urls in
  λ w, match crawler ≫= (λ c, (λ o, (c, o)) <$> heap w !! c) with
       | Some (c, o) =>
           let o' := {| running := true; requestQueue := requestQueue o ++ requests |} in
           let w1 := with_heap (<[c := o']> (heap w)) w in
           if running o then
             (* crawler.addRequests(...) *)
             (release uuids ;; mret Settled) w1
           else
             (* await crawler.run(...) *)
             (Ok (Awaiting c uuids), w1)
       | None => (release uuids ;; mret Settled) w
       end.

(** [run] from the moment [crawler.run] settles: [requestQueue.drop()]
    after a run that completed, the [catch] after one that failed, the
    [finally] after both. *)
Definition run_resume (crawler : nat) (uuids : list (option string)) (r : RunResult)
  : M unit :=
  λ w, let stop (o : Crawler) :=
         {| running := false;
            requestQueue := match r with Completed => [] | Failed => requestQueue o end |} in
       release uuids (with_heap (alter stop crawler (heap w)) w).

Section Worker.

(** [JSON.parse]: [None] when it throws. *)
Variable JSON_parse : string → option UserConfig.
(** [githubService.saveAdToPages({ url, html, imageUrls })] *)
Variable saveAdToPages : string → string → list string → result string.
(** [parserService.parseMetadata(html)] *)
Variable parseMetadata : string → result json.

(** [JSON.parse(await redis.HGET(...))]; [JSON.parse(null)] is [null]. *)
Definition parse_reply (r : option string) : M UserConfig :=
  match r with
  | None => mret ConfigNull
  | Some s =>
      match JSON_parse s with
      | Some c => mret c
      | None => throw SyntaxError
      end
  end.

(** [userConfig?.crawlerLimit] *)
Definition crawlerLimit_of (userConfig : UserConfig) : option Z :=
  match userConfig with
  | ConfigNull => None
  | ConfigObject l => l
  end.

(** [archive(options)]; [now] is [new Date().toLocaleString()]. *)
Definition archive (now : string) (options : Options) : M Outcome :=
  let listingURL := listingURL options in
  let listingUUID := listingUUID options in
  let clientId := clientId options in
  isRunning ← await (Redis.GET ("running-" +:+ listingUUID));
  if negb (truthy_string isRunning) then
    config ← await (Redis.HGET "userConfig" clientId);
    userConfig ← parse_reply config;
    numberOfCrawlers ← await (Redis.ZSCORE "crawlers" clientId);
    await_write (λ d, Ok (Redis.SET ("running-" +:+ listingUUID) now (Some 30) d));;
    results ← multi_exec [Redis.cHVALS "queued" [clientId]; Redis.cHKEYS "queued" [clientId]];
    queued ← as_array (results !! 0%nat);
    let urls :=
      filter (λ url, url ≠ "")
             (Array_from_Set (queued ++ [listingUUID +:+ " " +:+ listingURL])) in
    keys ← as_array (results !! 1%nat);
    detached_each (λ key, Redis.HDEL "queued" key) keys;;
    launched ← crawler_of clientId;
    match launched with
    | None =>
        crawler ← launchCrawler clientId;
        set_crawler clientId crawler
    | Some _ =>
        if negb (truthy_number numberOfCrawlers)
           || (default 0 numberOfCrawlers <? js_or (crawlerLimit_of userConfig) 1)
        then
          crawler ← launchCrawler clientId;
          set_crawler clientId crawler
        else mret ()
    end;;
    crawler ← crawler_of clientId;
    status ← run crawler urls options;
    mret (Dispatched crawler urls status)
  else
    detached (Redis.HSET "queued" clientId (listingUUID +:+ " " +:+ listingURL));;
    mret Queued.

(** [{ url, html, imageUrls, ...options }] as [JSON.stringify] walks it
    (a property that is [undefined] is left out). *)
Definition payload_fields (p : Payload) : list (string * json) :=
  match crawled_url p with
  | Some u => [("url", JStr u)]
  | None => []
  end
  ++ [("html", JStr (html p));
      ("imageUrls", JArr (JStr <$> imageUrls p));
      ("listingURL", JStr (listingURL (crawled_options p)));
      ("listingUUID", JStr (listingUUID (crawled_options p)));
      ("clientId", JStr (clientId (crawled_options p)));
      ("listingPid", JStr (listingPid (crawled_options p)))].

(** The payload the request handler of [launchCrawler] emits for a page:
    [{ url: request.url, html, imageUrls: Array.from(new Set(imageUrls)),
    ...options }] with [options = request.userData.options]. *)
Definition crawled (request : Request) (page_html : string) (images : list string)
  : Payload :=
  {| crawled_url := url request;
     html := page_html;
     imageUrls := Array_from_Set images;
     crawled_options := userData request |}.

(** [toRecentListing(listing)]; [date_now] is [Date.now()]. *)
Definition toRecentListing (date_now : Z) (listing : Payload) : M json :=
  metadata ← lift (parseMetadata (html listing));
  mret (JObj [("listingPid", JStr (listingPid (crawled_options listing)));
              ("metadata", metadata);
              ("createdAt", JNum date_now)]).

(** The listener of ['crawled']. *)
Definition on_crawled (date_now : Z) (payload : Payload) : M event :=
  let listingURL := listingURL (crawled_options payload) in
  let listingPid := listingPid (crawled_options payload) in
  gitUrl ← lift (saveAdToPages listingURL (html payload) (imageUrls payload));
  recentListing ← toRecentListing date_now payload;
  let multi := [] in
  let multi := multi ++ [Redis.cHSET "archives" listingPid (JSON_stringify (JObj (payload_fields payload)))] in
  let multi := addSetItem multi "recent_listings" (JSON_stringify recentListing) 10 in
  multi_exec multi;;
  mret (archived (JObj (payload_fields payload ++ [("gitUrl", JStr gitUrl)]))).

End Worker.

(** [Promise.all] over commands already sent: all of them run, the whole
    rejects when one of them failed. *)
Fixpoint Promise_all (cmds : list (Redis.db → result Redis.db)) : M unit :=
  match cmds with
  | [] => mret ()
  | cmd :: rest =>
      λ w, match cmd (redis w) with
           | Ok d => Promise_all rest (with_redis d w)
           | Throw e => (Throw e, (Promise_all rest w).2)
           end
  end.

(** [redis.DEL(key, 0, -1)]: the client keeps the key. *)
Definition DEL_call (key : string) (surplus : list Z) (d : Redis.db) : result Redis.db :=
  Ok (Redis.DEL key d).

(** The listener of [SIGUSR2]. *)
Definition on_SIGUSR2 : M unit :=
  queuedKeys ← await (λ d, Ok (Redis.KEYS "queued-*" d));
  runningKeys ← await (λ d, Ok (Redis.KEYS "running-*" d));
  Promise_all
    ([Redis.ZREMRANGEBYRANK "crawlers" 0 (-1)]
       ++ ((λ key, DEL_call key [0; -1]) <$> queuedKeys)
       ++ ((λ key, DEL_call key [0; -1]) <$> runningKeys)).

(** * Notions the properties are stated with *)

(** ** Stores the worker can work on

    Every key the worker uses holds the kind of value the worker keeps
    there. *)

Inductive kind := KString | KHash | KZSet | KSet.

Definition kind_of (v : Redis.value) : kind :=
  match v with
  | Redis.VString _ _ => KString
  | Redis.VHash _ => KHash
  | Redis.VZSet _ => KZSet
  | Redis.VSet _ => KSet
  end.

Fixpoint starts_with (p s : string) : bool :=
  match p, s with
  | EmptyString, _ => true
  | String a p', String b s' => Ascii.eqb a b && starts_with p' s'
  | String _ _, EmptyString => false
  end.

Definition expected_kind (k : string) : option kind :=
  if starts_with "running-" k then Some KString
  else if String.eqb k "queued" || String.eqb k "userConfig" || String.eqb k "archives"
       then Some KHash
  else if String.eqb k "crawlers" then Some KZSet
  else if String.eqb k "recent_listings" then Some KSet
  else None.

Definition kind_ok (k : string) (v : Redis.value) : Prop :=
  ∀ kd, expected_kind k = Some kd → kind_of v = kd.

Definition well_typed (d : Redis.db) : Prop := map_Forall kind_ok d.

(** Every tenant with a crawler has it in the heap. *)
Definition registry_ok (w : World) : Prop :=
  ∀ t c, crawlers w !! t = Some c → (c < length (heap w))%nat.

Definition well_formed (w : World) : Prop :=
  well_typed (redis w) ∧ registry_ok w.

(** The hash, the sorted set, the set at a key, empty when the key holds
    something else. *)
Definition hash_of (k : string) (d : Redis.db) : gmap string string :=
  match d !! k with Some (Redis.VHash h) => h | _ => ∅ end.
Definition zset_of (k : string) (d : Redis.db) : gmap string Z :=
  match d !! k with Some (Redis.VZSet z) => z | _ => ∅ end.
Definition set_of (k : string) (d : Redis.db) : gset string :=
  match d !! k with Some (Redis.VSet s) => s | _ => ∅ end.

(** The value of a lock, when the key holds one. *)
Definition lock_of (uuid : string) (d : Redis.db) : option string :=
  match d !! lock_key uuid with Some (Redis.VString v _) => Some v | _ => None end.

(** The tenant's recorded number of crawlers. *)
Definition count_of (t : string) (d : Redis.db) : Z :=
  default 0 (zset_of "crawlers" d !! t).

(** The entry [archive] queues or admits: ["<listingUUID> <listingURL>"]. *)
Definition entry_of (o : Options) : string :=
  listingUUID o +:+ " " +:+ listingURL o.

(** The keys [release] deletes. *)
Definition released (uuids : list (option string)) : list string :=
  (λ uuid, "running-" +:+ interpolate uuid) <$> uuids.

(** The requests [run] builds and the uuids it releases. *)
Definition requests_of (urlMap : list string) (options : Options) : list Request :=
  (λ m, {| url := split " " m !! 1%nat; userData := options |}) <$> urlMap.
Definition uuids_of (urlMap : list string) : list (option string) :=
  (λ m, split " " m !! 0%nat) <$> urlMap.

Section Stages.

Variable JSON_parse : string → option UserConfig.

(** *** The stages of an admitted call *)

(** The configuration [archive] reads for a tenant; [None] when
    [JSON.parse] throws. *)
Definition config_of (t : string) (d : Redis.db) : option UserConfig :=
  match hash_of "userConfig" d !! t with
  | None => Some ConfigNull
  | Some s => JSON_parse s
  end.

(** The limit [archive] compares with: [userConfig?.crawlerLimit || 1]. *)
Definition limit_of (t : string) (d : Redis.db) : Z :=
  js_or (crawlerLimit_of (default ConfigNull (config_of t d))) 1.

(** After [SET running-<uuid> <now> EX 30]. *)
Definition locked_world (now : string) (o : Options) (w : World) : World :=
  with_redis (Redis.SET (lock_key (listingUUID o)) now (Some 30) (redis w)) w.

(** After the [HDEL]s over the reply of [HKEYS queued]. *)
Definition drained_world (w : World) : World :=
  (detached_each (λ key, Redis.HDEL "queued" key)
                 (map_to_list (hash_of "queued" (redis w))).*1 w).2.

(** Whether [archive] calls [launchCrawler]. *)
Definition launches (t : string) (w : World) : bool :=
  match crawlers w !! t with
  | None => true
  | Some _ =>
      negb (truthy_number (zset_of "crawlers" (redis w) !! t))
      || (count_of t (redis w) <? limit_of t (redis w))
  end.

(** After [crawlers[clientId] = await launchCrawler(emitter, clientId)]. *)
Definition launched_world (t : string) (w : World) : World :=
  ((launchCrawler t ≫= set_crawler t) w).2.

(** The batch: the values of [queued] and the new entry, without
    repetitions and without empty strings. *)
Definition batch_of (o : Options) (w : World) : list string :=
  filter (λ url, url ≠ "")
         (Array_from_Set ((map_to_list (hash_of "queued" (redis w))).*2 ++ [entry_of o])).

Definition admitted_world (now : string) (o : Options) (w : World) : World :=
  let w2 := drained_world (locked_world now o w) in
  if launches (clientId o) w then launched_world (clientId o) w2 else w2.

End Stages.

(** ** Concrete stores and requests *)

Definition locked_example : World :=
  {| redis := {[ "running-u1" := Redis.VString "11/2/2026, 7:48:00 PM" (Some 30) ]};
     crawlers := ∅; heap := [] |}.
Definition fresh_example : World := {| redis := ∅; crawlers := ∅; heap := [] |}.
Definition request_example : Options :=
  {| listingURL := "https://example.org/ad/1"; listingUUID := "u1";
     clientId := "t1"; listingPid := "7001" |}.

(** A string without a space, as a [listingUUID] is. *)
Fixpoint no_space (s : string) : bool :=
  match s with
  | EmptyString => true
  | String c r => negb (Ascii.eqb c " ") && no_space r
  end.

(** A world with an entry parked for tenant [t1] by an earlier request,
    and a world with entries parked for two tenants. *)
Definition parked_example : World :=
  {| redis := {[ "queued" := Redis.VHash {[ "t1" := "u0 https://example.org/ad/0" ]} ]};
     crawlers := ∅; heap := [] |}.
Definition two_tenants_example : World :=
  {| redis := {[ "queued" := Redis.VHash {[ "t1" := "u0 https://example.org/ad/0";
                                            "t2" := "u9 https://example.org/ad/9" ]} ]};
     crawlers := ∅; heap := [] |}.

(** Every request of a batch carries the uuid of the entry it was cut
    from. *)
Definition tagged_with_origin (urlMap : list string) (requests : list Request) : Prop :=
  Forall2 (λ m r, split " " m !! 0%nat = Some (listingUUID (userData r))) urlMap requests.

(** The urls of a batch, as [run] cuts them out. *)
Definition urls_of (urlMap : list string) : list (option string) :=
  (λ m, split " " m !! 1%nat) <$> urlMap.

(** A world where tenant [t1] has the url of [request_example] parked
    under another uuid. *)
Definition same_url_example : World :=
  {| redis := {[ "queued" := Redis.VHash {[ "t1" := "u0 https://example.org/ad/1" ]} ]};
     crawlers := ∅; heap := [] |}.

(** The scenario of the reset: one lock, one parked entry, one recorded
    crawler. *)
Definition reset_example : World :=
  {| redis := {[ "running-abc" := Redis.VString "11/2/2026, 7:48:00 PM" (Some 30);
                 "queued" := Redis.VHash {[ "t1" := "abc https://example.org/ad/1" ]};
                 "crawlers" := Redis.VZSet {[ "t1" := 1 ]} ]};
     crawlers := {[ "t1" := 0%nat ]};
     heap := [ {| running := true; requestQueue := [] |} ] |}.

(** A crawled page, collaborators that succeed, and a ledger that is
    full. *)
Definition payload_example : Payload :=
  crawled {| url := Some "https://example.org/ad/1"; userData := request_example |}
          "<html></html>" ["https://example.org/1.jpg"; "https://example.org/1.jpg"].
Definition save_example (url html : string) (images : list string) : result string :=
  Ok "https://pages.example.org/ad/1".
Definition parse_example (html : string) : result json :=
  Ok (JObj [("title", JStr "ad")]).
Definition full_ledger_example : World :=
  {| redis := {[ "recent_listings" :=
                   Redis.VSet (list_to_set ["m0"; "m1"; "m2"; "m3"; "m4";
                                            "m5"; "m6"; "m7"; "m8"; "m9"]) ]};
     crawlers := ∅; heap := [] |}.

(** The member [toRecentListing] and [JSON.stringify] make of a payload. *)
Definition recent_of (metadata : json) (date_now : Z) (p : Payload) : string :=
  JSON_stringify (JObj [("listingPid", JStr (listingPid (crawled_options p)));
                        ("metadata", metadata);
                        ("createdAt", JNum date_now)]).

(** ** The worker as a transition system

    One step is a call of [archive] from its first command to its return,
    a run that settles, a ['crawled'] event handled, a reset, or a key
    with an expiry that expires. The calls of [archive] are taken one
    after the other: no call starts while another is between two of its
    [await]s. *)
Inductive step (JSON_parse : string → option UserConfig)
    (saveAdToPages : string → string → list string → result string)
    (parseMetadata : string → result json) : World → World → Prop :=
| step_archive now o w :
    step JSON_parse saveAdToPages parseMetadata w (archive JSON_parse now o w).2
| step_settled crawler uuids r w :
    step JSON_parse saveAdToPages parseMetadata w (run_resume crawler uuids r w).2
| step_crawled date_now p w :
    step JSON_parse saveAdToPages parseMetadata w
         (on_crawled saveAdToPages parseMetadata date_now p w).2
| step_reset w :
    step JSON_parse saveAdToPages parseMetadata w (on_SIGUSR2 w).2
| step_expired k v ex w :
    redis w !! k = Some (Redis.VString v (Some ex)) →
    step JSON_parse saveAdToPages parseMetadata w (with_redis (delete k (redis w)) w).

(** A worker that has just started, on a store without recorded
    crawlers. *)
Definition fresh_start (w : World) : Prop :=
  well_typed (redis w) ∧ redis w !! "crawlers" = None ∧ crawlers w = ∅ ∧ heap w = [].

(** A store with a limit of two crawlers for tenant [t1], and one with a
    limit of zero, under a [JSON.parse] that reads just these two
    configurations. *)
Definition limit_json (n : Z) : string :=
  JSON_stringify (JObj [("crawlerLimit", JNum n)]).
Definition parse_limit_example (s : string) : option UserConfig :=
  if String.eqb s (limit_json 2) then Some (ConfigObject (Some 2))
  else if String.eqb s (limit_json 0) then Some (ConfigObject (Some 0))
  else None.
Definition configured_example : World :=
  {| redis := {[ "userConfig" := Redis.VHash {[ "t1" := limit_json 2 ]} ]};
     crawlers := ∅; heap := [] |}.
Definition zero_limit_example : World :=
  {| redis := {[ "userConfig" := Redis.VHash {[ "t1" := limit_json 0 ]} ]};
     crawlers := ∅; heap := [] |}.

(** A worker that has just started on a store where another worker, or
    the same one before a restart, recorded a crawler for [t1]. *)
Definition stale_count_example : World :=
  {| redis := {[ "crawlers" := Redis.VZSet {[ "t1" := 1 ]} ]};
     crawlers := ∅; heap := [] |}.

(** ** More concrete stores *)

(** A store where the configuration of [t1] is not JSON. *)
Definition bad_config_example : World :=
  {| redis := {[ "userConfig" := Redis.VHash {[ "t1" := "{crawlerLimit" ]} ]};
     crawlers := ∅; heap := [] |}.

(** A second request of [t1], for another listing. *)
Definition request2_example : Options :=
  {| listingURL := "https://example.org/ad/2"; listingUUID := "u2";
     clientId := "t1"; listingPid := "7002" |}.

(** Both listings locked. *)
Definition both_locked_example : World :=
  {| redis := {[ "running-u1" := Redis.VString "11/2/2026, 7:48:00 PM" (Some 30);
                 "running-u2" := Redis.VString "11/2/2026, 7:48:30 PM" (Some 30) ]};
     crawlers := ∅; heap := [] |}.

(** The part of a string before its first space. *)
Fixpoint first_word (s : string) : string :=
  match s with
  | EmptyString => EmptyString
  | String c r => if Ascii.eqb c " " then EmptyString else String c (first_word r)
  end.

(** Tenant [t1] with a crawler that is running and recorded, and the same
    with the crawler idle. *)
Definition busy_example : World :=
  {| redis := {[ "crawlers" := Redis.VZSet {[ "t1" := 1 ]} ]};
     crawlers := {[ "t1" := 0%nat ]};
     heap := [ {| running := true; requestQueue := [] |} ] |}.
Definition idle_example : World :=
  {| redis := {[ "crawlers" := Redis.VZSet {[ "t1" := 1 ]} ]};
     crawlers := {[ "t1" := 0%nat ]};
     heap := [ {| running := false; requestQueue := [] |} ] |}.

(** A request whose uuid has a space in it, and one whose url has. *)
Definition spaced_uuid_example : Options :=
  {| listingURL := "https://example.org/ad/3"; listingUUID := "u 3";
     clientId := "t1"; listingPid := "7003" |}.
Definition spaced_url_example : Options :=
  {| listingURL := "https://example.org/ad 4"; listingUUID := "u4";
     clientId := "t1"; listingPid := "7004" |}.

(** Collaborators that reject. *)
Definition save_rejects (url html : string) (images : list string) : result string :=
  Throw Rejected.
Definition parse_rejects (html : string) : result json := Throw Rejected.

(** A second page of the same listing. *)
Definition payload_again_example : Payload :=
  crawled {| url := Some "https://example.org/ad/1"; userData := request_example |}
          "<html>sold</html>" [].

(** ** The request handler of [launchCrawler]

    What the handler gets from the page, each answer of the browser a
    value or a rejection: [page.content()]; [page.$('.gallery .swipe')]
    ([None] when there is no such element) with how [hover()] and
    [click()] on it go; [page.waitForSelector('.gallery.big')];
    [page.evaluate(...)], the [src] of the images of the slides (each
    image taken to have one); [page.screenshot()]; [page.close()]. *)
Record Page := {
  page_content : result string;
  gallery_swipe : option (result unit);
  gallery_big : result unit;
  slide_srcs : result (list string);
  page_screenshot : result string;
  page_close : result unit;
}.

(** What the handler emits: ['crawled'] with its payload, ['screenshot']
    with [{ buffer, uuid }]. *)
Inductive emitted :=
| emit_crawled (payload : Payload)
| emit_screenshot (buffer uuid : string).

(** The handler: the events it emitted, in order, and how it ended. What
    is emitted before a rejection stays emitted. *)
Definition requestHandler (request : Request) (page : Page) : list emitted * result unit :=
  let options := userData request in
  match page_content page with
  | Throw e => ([], Throw e)
  | Ok html =>
      match gallery_swipe page with
      | None => ([], Throw TypeError)        (* gallery.hover() on null *)
      | Some (Throw e) => ([], Throw e)
      | Some (Ok _) =>
          match gallery_big page with
          | Throw e => ([], Throw e)
          | Ok _ =>
              match slide_srcs page with
              | Throw e => ([], Throw e)
              | Ok imageUrls =>
                  let first := emit_crawled (crawled request html imageUrls) in
                  match page_screenshot page with
                  | Throw e => ([first], Throw e)
                  | Ok buffer =>
                      ([first; emit_screenshot buffer (listingUUID options)],
                       page_close page)
                  end
              end
          end
      end
  end.

(** A page with a gallery, and the same page without. *)
Definition page_example : Page :=
  {| page_content := Ok "<html></html>";
     gallery_swipe := Some (Ok ());
     gallery_big := Ok ();
     slide_srcs := Ok ["https://example.org/1.jpg"; "https://example.org/2.jpg";
                       "https://example.org/1.jpg"];
     page_screenshot := Ok "PNG";
     page_close := Ok () |}.
Definition page_without_gallery : Page :=
  {| page_content := Ok "<html></html>";
     gallery_swipe := None;
     gallery_big := Throw Rejected;
     slide_srcs := Ok [];
     page_screenshot := Ok "PNG";
     page_close := Ok () |}.

(** A store where the key of the lock of [u1] holds the empty string. *)
Definition empty_lock_example : World :=
  {| redis := {[ "running-u1" := Redis.VString "" None ]}; crawlers := ∅; heap := [] |}.


(** A third request of [t1], and the worker after three admitted calls of
    [t1] under a limit of two. *)
Definition request3_example : Options :=
  {| listingURL := "https://example.org/ad/5"; listingUUID := "u5";
     clientId := "t1"; listingPid := "7005" |}.
Definition three_calls_example : World :=
  (archive parse_limit_example "11/2/2026, 7:51:00 PM" request3_example
     (archive parse_limit_example "11/2/2026, 7:50:00 PM" request2_example
        (archive parse_limit_example "11/2/2026, 7:49:00 PM" request_example
           configured_example).2).2).2.

(** ** Calls of [archive] that overlap

    An [async] function runs without interruption from one [await] to
    the next, and while it waits other code of the process runs. The
    store carries out a command when it is sent; the reply reaches the
    function when it resumes. *)

(** What is left of a call: its result, or the segment it runs when it
    resumes, up to its next [await] or its end. *)
Inductive Async (A : Type) : Type :=
| Return (r : result A)
| Await (segment : World → Async A * World).
Arguments Return {A} r.
Arguments Await {A} segment.

(** [x = await ...; rest]: the segment runs [m], the code up to the
    [await] with the command it sends; the call resumes with [rest]. An
    error thrown in the segment rejects the call. *)
Definition wait {A B} (m : M A) (rest : A → Async B) : Async B :=
  Await (λ w, match m w with
              | (Ok x, w') => (rest x, w')
              | (Throw e, w') => (Return (Throw e), w')
              end).

(** A call run to its end with no other code in between. *)
Fixpoint finish {A} (call : Async A) (w : World) : result A * World :=
  match call with
  | Return r => (r, w)
  | Await segment => let '(rest, w') := segment w in finish rest w'
  end.

(** [archive(options)], cut at its [await]s: l.34, l.39, l.40, l.42,
    l.47 and l.53 or l.55. [run] is not awaited: it runs inside the last
    segment up to its own [await]. *)
Definition archive_async (JSON_parse : string → option UserConfig)
    (now : string) (options : Options) : Async Outcome :=
  let listingURL := listingURL options in
  let listingUUID := listingUUID options in
  let clientId := clientId options in
  wait (await (Redis.GET ("running-" +:+ listingUUID))) (λ isRunning,
  if negb (truthy_string isRunning) then
    wait (await (Redis.HGET "userConfig" clientId)) (λ config,
    wait (userConfig ← parse_reply JSON_parse config;
          numberOfCrawlers ← await (Redis.ZSCORE "crawlers" clientId);
          mret (userConfig, numberOfCrawlers)) (λ read,
    let userConfig := read.1 in
    let numberOfCrawlers := read.2 in
    wait (await_write (λ d, Ok (Redis.SET ("running-" +:+ listingUUID) now (Some 30) d)))
         (λ _,
    wait (multi_exec [Redis.cHVALS "queued" [clientId]; Redis.cHKEYS "queued" [clientId]])
         (λ results,
    wait (queued ← as_array (results !! 0%nat);
          let urls :=
            filter (λ url, url ≠ "")
                   (Array_from_Set (queued ++ [listingUUID +:+ " " +:+ listingURL])) in
          keys ← as_array (results !! 1%nat);
          detached_each (λ key, Redis.HDEL "queued" key) keys;;
          launched ← crawler_of clientId;
          match launched with
          | None =>
              crawler ← launchCrawler clientId;
              mret (inl (urls, crawler))
          | Some _ =>
              if negb (truthy_number numberOfCrawlers)
                 || (default 0 numberOfCrawlers <? js_or (crawlerLimit_of userConfig) 1)
              then
                crawler ← launchCrawler clientId;
                mret (inl (urls, crawler))
              else
                crawler ← crawler_of clientId;
                status ← run crawler urls options;
                mret (inr (Dispatched crawler urls status))
          end) (λ next,
    match next with
    | inl (urls, crawler) =>
        wait (set_crawler clientId crawler;;
              crawler ← crawler_of clientId;
              status ← run crawler urls options;
              mret (Dispatched crawler urls status))
             (λ outcome, Return (Ok outcome))
    | inr outcome => Return (Ok outcome)
    end)))))
  else
    wait (detached (Redis.HSET "queued" clientId (listingUUID +:+ " " +:+ listingURL));;
          mret Queued)
         (λ outcome, Return (Ok outcome))).

(** A call resumed for one segment; a call that has returned stays as it
    is. *)
Definition resume {A} (call : Async A) (w : World) : Async A * World :=
  match call with
  | Return r => (Return r, w)
  | Await segment => segment w
  end.

(** Two calls in the process: [schedule] tells, segment after segment,
    which of them resumes ([true] for the first). *)
Fixpoint interleave {A B} (schedule : list bool) (a : Async A) (b : Async B) (w : World)
  : Async A * Async B * World :=
  match schedule with
  | [] => (a, b, w)
  | true :: later => let '(a', w') := resume a w in interleave later a' b w'
  | false :: later => let '(b', w') := resume b w in interleave later a b' w'
  end.

(** Two calls made one right after the other: their commands reach the
    store in turns and so do the replies. *)
Fixpoint in_turns (n : nat) : list bool :=
  match n with
  | O => []
  | S n' => true :: false :: in_turns n'
  end.

(** * Properties *)

Section StoreFacts.

Implicit Types (d : Redis.db) (k f u : string).

Lemma lock_key_kind u : expected_kind (lock_key u) = Some KString.
Proof. reflexivity. Qed.

Lemma well_typed_empty : well_typed ∅.
Proof. apply map_Forall_empty. Qed.

Lemma well_typed_insert d k v :
  kind_ok k v → well_typed d → well_typed (<[k := v]> d).
Proof. intros. by apply map_Forall_insert_2. Qed.

Lemma well_typed_delete d k : well_typed d → well_typed (delete k d).
Proof. apply map_Forall_delete. Qed.

Lemma well_typed_hash d k :
  well_typed d → expected_kind k = Some KHash →
  Redis.hash_at k d = Ok (hash_of k d).
Proof.
  intros Hd Hk. unfold Redis.hash_at, hash_of.
  destruct (d !! k) as [v|] eqn:E; [|done].
  specialize (Hd k v E _ Hk). by destruct v.
Qed.

Lemma well_typed_zset d k :
  well_typed d → expected_kind k = Some KZSet →
  Redis.zset_at k d = Ok (zset_of k d).
Proof.
  intros Hd Hk. unfold Redis.zset_at, zset_of.
  destruct (d !! k) as [v|] eqn:E; [|done].
  specialize (Hd k v E _ Hk). by destruct v.
Qed.

Lemma well_typed_set d k :
  well_typed d → expected_kind k = Some KSet →
  Redis.set_at k d = Ok (set_of k d).
Proof.
  intros Hd Hk. unfold Redis.set_at, set_of.
  destruct (d !! k) as [v|] eqn:E; [|done].
  specialize (Hd k v E _ Hk). by destruct v.
Qed.

Lemma well_typed_GET d u :
  well_typed d → Redis.GET (lock_key u) d = Ok (lock_of u d).
Proof.
  intros Hd. unfold Redis.GET, lock_of.
  destruct (d !! lock_key u) as [v|] eqn:E; [|done].
  specialize (Hd _ v E _ (lock_key_kind u)). by destruct v.
Qed.

Lemma kind_ok_lock u v ex : kind_ok (lock_key u) (Redis.VString v ex).
Proof. intros kd. rewrite lock_key_kind. by intros [= <-]. Qed.

Lemma put_hash_well_typed d k h :
  well_typed d → kind_ok k (Redis.VHash h) → well_typed (Redis.put_hash k h d).
Proof.
  intros. unfold Redis.put_hash. case_decide.
  - by apply well_typed_delete.
  - by apply well_typed_insert.
Qed.

(** Reading back after the writes of [put_hash]. *)
Lemma hash_of_put_hash d k h : hash_of k (Redis.put_hash k h d) = h.
Proof.
  unfold hash_of, Redis.put_hash. case_decide; simplify_map_eq; done.
Qed.

Lemma lookup_put_hash_ne d k k' h :
  k ≠ k' → Redis.put_hash k h d !! k' = d !! k'.
Proof.
  intros. unfold Redis.put_hash. case_decide; by simplify_map_eq.
Qed.

End StoreFacts.

(** ** Running the computations *)

Lemma truthy_string_true (v : option string) :
  truthy_string v = true ↔ ∃ s, v = Some s ∧ s ≠ "".
Proof.
  destruct v as [s|]; simpl.
  - rewrite negb_true_iff, String.eqb_neq. split; [by exists s|].
    by intros (? & [= <-] & ?).
  - split; [done|]. by intros (? & [=] & _).
Qed.

Lemma bind_unfold {A B} (m : M A) (k : A → M B) w :
  (m ≫= k) w = match m w with
               | (Ok a, w') => k a w'
               | (Throw e, w') => (Throw e, w')
               end.
Proof. reflexivity. Qed.

Lemma run_total crawler urls o w : ∃ s w', run crawler urls o w = (Ok s, w').
Proof.
  unfold run. destruct (crawler ≫= _) as [[c cr]|]; [destruct (running cr)|]; eauto.
Qed.

Lemma lookup_SET_ne d k k' v ex : k ≠ k' → Redis.SET k v ex d !! k' = d !! k'.
Proof. intros. unfold Redis.SET. by rewrite lookup_insert_ne. Qed.

Lemma lock_key_ne u k : expected_kind k ≠ Some KString → lock_key u ≠ k.
Proof. intros Hk <-. by rewrite lock_key_kind in Hk. Qed.

Lemma hash_of_SET_lock d u v ex k :
  expected_kind k ≠ Some KString →
  hash_of k (Redis.SET (lock_key u) v ex d) = hash_of k d.
Proof. intros Hk. unfold hash_of. by rewrite lookup_SET_ne by by apply lock_key_ne. Qed.

Lemma well_typed_SET_lock d u v ex :
  well_typed d → well_typed (Redis.SET (lock_key u) v ex d).
Proof. intros. apply well_typed_insert; [apply kind_ok_lock|done]. Qed.

Lemma detached_each_ok {A} (cmd : A → Redis.db → result Redis.db) l w :
  detached_each cmd l w = (Ok (), (detached_each cmd l w).2).
Proof.
  revert w. induction l as [|x l IH]; intros w; [done|].
  simpl. rewrite !bind_unfold. unfold detached.
  destruct (cmd x (redis w)); simpl; apply IH.
Qed.

Lemma detached_each_process {A} (cmd : A → Redis.db → result Redis.db) l w :
  crawlers (detached_each cmd l w).2 = crawlers w
  ∧ heap (detached_each cmd l w).2 = heap w.
Proof.
  revert w. induction l as [|x l IH]; intros w; [done|].
  simpl. rewrite !bind_unfold. unfold detached.
  destruct (cmd x (redis w)); simpl; [|apply IH].
  by rewrite (proj1 (IH _)), (proj2 (IH _)).
Qed.

Lemma multi_exec_drain s1 s2 w :
  well_typed (redis w) →
  multi_exec [Redis.cHVALS "queued" s1; Redis.cHKEYS "queued" s2] w =
    (Ok [Redis.RArray (map_to_list (hash_of "queued" (redis w))).*2;
         Redis.RArray (map_to_list (hash_of "queued" (redis w))).*1], w).
Proof.
  intros Hd. pose proof (well_typed_hash _ "queued" Hd eq_refl) as E.
  unfold multi_exec. simpl. unfold Redis.HVALS, Redis.HKEYS.
  rewrite E. simpl. rewrite E. by destruct w.
Qed.

Lemma launchCrawler_eq t w :
  launchCrawler t w =
    (Ok (length (heap w)),
     with_redis
       (match Redis.ZINCRBY "crawlers" 1 t (redis w) with Ok d => d | Throw _ => redis w end)
       (with_heap (heap w ++ [{| running := false; requestQueue := [] |}]) w)).
Proof.
  unfold launchCrawler. rewrite bind_unfold. unfold detached. simpl.
  by destruct (Redis.ZINCRBY _ _ _ _).
Qed.

(** ** What each command leaves alone *)

Lemma kind_ok_expected k v : expected_kind k = Some (kind_of v) → kind_ok k v.
Proof. intros E kd. rewrite E. by intros [= <-]. Qed.

Lemma hash_at_put_hash d k h :
  Redis.hash_at k (Redis.put_hash k h d) = Ok (hash_of k (Redis.put_hash k h d)).
Proof.
  unfold Redis.hash_at, hash_of, Redis.put_hash.
  case_decide; by simplify_map_eq.
Qed.

Lemma exec_DEL {A} (key : A → string) (surplus : list string) (l : list A) d k :
  (Redis.exec ((λ x, Redis.cDEL (key x) surplus) <$> l) d).2 !! k =
    if decide (k ∈ key <$> l) then None else d !! k.
Proof.
  revert d. induction l as [|x l IH]; intros d.
  - rewrite decide_False by apply not_elem_of_nil. done.
  - rewrite fmap_cons. cbn [Redis.exec Redis.run_command].
    destruct (Redis.exec _ _) as [rs d2] eqn:E. cbn [snd].
    specialize (IH (Redis.DEL (key x) d)). rewrite E in IH. cbn [snd] in IH. rewrite IH.
    unfold Redis.DEL. rewrite fmap_cons.
    destruct (decide (k = key x)) as [->|Hne].
    + rewrite lookup_delete_eq, (decide_True (P := key x ∈ _ :: _)) by apply list_elem_of_here.
      by case_decide.
    + rewrite lookup_delete_ne by done.
      destruct (decide (k ∈ key <$> l)) as [Hin|Hin].
      * by rewrite decide_True by by apply list_elem_of_further.
      * rewrite decide_False; [done|]. by intros [?|?]%elem_of_cons.
Qed.

Lemma release_eq uuids w :
  release uuids w =
    (Ok (), with_redis (Redis.exec ((λ uuid, Redis.cDEL ("running-" +:+ interpolate uuid) []) <$> uuids) (redis w)).2 w).
Proof. reflexivity. Qed.

Lemma release_lookup uuids w k :
  redis (release uuids w).2 !! k =
    if decide (k ∈ released uuids) then None else redis w !! k.
Proof. rewrite release_eq. simpl. apply exec_DEL. Qed.

Lemma released_prefix uuids k : k ∈ released uuids → starts_with "running-" k = true.
Proof.
  unfold released. intros (uuid & -> & _)%list_elem_of_fmap. done.
Qed.

Lemma release_other uuids w k :
  starts_with "running-" k = false → redis (release uuids w).2 !! k = redis w !! k.
Proof.
  intros Hk. rewrite release_lookup. case_decide as H; [|done].
  apply released_prefix in H. congruence.
Qed.

Lemma release_well_typed uuids w :
  well_typed (redis w) → well_typed (redis (release uuids w).2).
Proof.
  intros Hd k v. rewrite release_lookup. case_decide; [done|]. apply Hd.
Qed.

Lemma run_eq c o' urlMap options w :
  heap w !! c = Some o' →
  run (Some c) urlMap options w =
    let w1 := with_heap (<[c := {| running := true;
                                   requestQueue := requestQueue o' ++ requests_of urlMap options |}]> (heap w)) w in
    if running o' then (Ok Settled, (release (uuids_of urlMap) w1).2)
    else (Ok (Awaiting c (uuids_of urlMap)), w1).
Proof.
  intros E. unfold run, requests_of, uuids_of. cbn [mbind option_bind]. rewrite E.
  cbn [fmap option_fmap option_map]. rewrite <- list_fmap_compose.
  by destruct (running o').
Qed.

Lemma run_no_crawler crawler urlMap options w :
  crawler ≫= (λ c, heap w !! c) = None →
  run crawler urlMap options w = (Ok Settled, (release (uuids_of urlMap) w).2).
Proof.
  intros E. unfold run.
  destruct crawler as [c|]; simpl in *; [rewrite E|]; done.
Qed.

Lemma run_resume_eq c uuids r w :
  run_resume c uuids r w =
    (Ok (),
     (release uuids
        (with_heap
           (alter (λ o, {| running := false;
                           requestQueue := match r with
                                           | Completed => []
                                           | Failed => requestQueue o
                                           end |}) c (heap w)) w)).2).
Proof. reflexivity. Qed.

(** [run] and [run_resume] touch the store through [release] only. *)
Lemma run_redis crawler urlMap options w :
  redis (run crawler urlMap options w).2 = redis w
  ∨ redis (run crawler urlMap options w).2 = redis (release (uuids_of urlMap) w).2.
Proof.
  destruct (crawler ≫= (λ c, heap w !! c)) as [o'|] eqn:E.
  - destruct crawler as [c|]; [|done]. simpl in E. rewrite (run_eq _ _ _ _ _ E).
    cbv zeta. destruct (running o'); [right|left]; done.
  - right. by rewrite run_no_crawler.
Qed.

Lemma run_crawlers crawler urlMap options w :
  crawlers (run crawler urlMap options w).2 = crawlers w.
Proof.
  destruct (crawler ≫= (λ c, heap w !! c)) as [o'|] eqn:E.
  - destruct crawler as [c|]; [|done]. simpl in E. rewrite (run_eq _ _ _ _ _ E).
    cbv zeta. by destruct (running o').
  - by rewrite run_no_crawler.
Qed.

Lemma run_heap_length crawler urlMap options w :
  length (heap (run crawler urlMap options w).2) = length (heap w).
Proof.
  destruct (crawler ≫= (λ c, heap w !! c)) as [o'|] eqn:E.
  - destruct crawler as [c|]; [|done]. simpl in E. rewrite (run_eq _ _ _ _ _ E).
    cbv zeta. destruct (running o'); simpl; by rewrite length_insert.
  - by rewrite run_no_crawler.
Qed.

Lemma run_lookup crawler urlMap options w k :
  starts_with "running-" k = false →
  redis (run crawler urlMap options w).2 !! k = redis w !! k.
Proof.
  intros Hk. destruct (run_redis crawler urlMap options w) as [->| ->]; [done|].
  by apply release_other.
Qed.

Lemma run_well_typed crawler urlMap options w :
  well_typed (redis w) → well_typed (redis (run crawler urlMap options w).2).
Proof.
  intros Hd. destruct (run_redis crawler urlMap options w) as [->| ->]; [done|].
  by apply release_well_typed.
Qed.

(** *** Hash fields *)

Lemma HDEL_spec d k f :
  Redis.hash_at k d = Ok (hash_of k d) →
  Redis.HDEL k f d = Ok (Redis.put_hash k (delete f (hash_of k d)) d).
Proof. intros E. unfold Redis.HDEL. by rewrite E. Qed.

Lemma drain_fields l w :
  Redis.hash_at "queued" (redis w) = Ok (hash_of "queued" (redis w)) →
  let w' := (detached_each (λ key, Redis.HDEL "queued" key) l w).2 in
  (∀ f, hash_of "queued" (redis w') !! f =
          if decide (f ∈ l) then None else hash_of "queued" (redis w) !! f)
  ∧ (∀ k, k ≠ "queued" → redis w' !! k = redis w !! k)
  ∧ (well_typed (redis w) → well_typed (redis w')).
Proof.
  revert w. induction l as [|x l IH]; intros w E; cbv zeta.
  - split_and!; [|done..]. intros f. by rewrite decide_False by apply not_elem_of_nil.
  - set (w1 := with_redis (Redis.put_hash "queued" (delete x (hash_of "queued" (redis w))) (redis w)) w).
    assert ((detached_each (λ key, Redis.HDEL "queued" key) (x :: l) w).2
            = (detached_each (λ key, Redis.HDEL "queued" key) l w1).2) as ->.
    { cbn [detached_each]. rewrite bind_unfold. unfold detached at 1.
      by rewrite (HDEL_spec _ _ _ E). }
    destruct (IH w1) as (Hf & Hk & Ht).
    { simpl. apply hash_at_put_hash. }
    split_and!.
    + intros f. rewrite Hf. simpl. rewrite hash_of_put_hash.
      destruct (decide (f = x)) as [->|Hne].
      * rewrite (decide_True (P := x ∈ x :: l)) by apply list_elem_of_here.
        rewrite lookup_delete_eq. by case_decide.
      * rewrite lookup_delete_ne by done.
        destruct (decide (f ∈ l)) as [Hin|Hin].
        -- by rewrite decide_True by by apply list_elem_of_further.
        -- rewrite decide_False; [done|]. by intros [?|?]%elem_of_cons.
    + intros k Hne. rewrite Hk by done. simpl. by apply lookup_put_hash_ne.
    + intros Hd. apply Ht. simpl. apply put_hash_well_typed; [done|].
      by apply kind_ok_expected.
Qed.

Section Unlocked.

Variable JSON_parse : string → option UserConfig.

(** With the target locked, [archive] overwrites the tenant's field of
    [queued] and does nothing else. *)
Lemma archive_locked now o w :
  well_typed (redis w) →
  truthy_string (lock_of (listingUUID o) (redis w)) = true →
  archive JSON_parse now o w =
    (Ok Queued,
     with_redis (<["queued" := Redis.VHash (<[clientId o := entry_of o]> (hash_of "queued" (redis w)))]> (redis w)) w).
Proof.
  intros Hd Hlock. unfold archive, mbind, M_bind, await.
  fold (lock_key (listingUUID o)).
  rewrite (well_typed_GET _ _ Hd), Hlock. simpl.
  unfold detached, Redis.HSET.
  by rewrite (well_typed_hash _ "queued" Hd).
Qed.

Lemma launch_and_register t w :
  (launchCrawler t ≫= set_crawler t) w = (Ok (), launched_world t w).
Proof.
  unfold launched_world. rewrite bind_unfold, launchCrawler_eq. done.
Qed.

(** An admitted call is the three stages, then [run]. *)
Lemma archive_unlocked now o w cfg :
    well_typed (redis w) →
    truthy_string (lock_of (listingUUID o) (redis w)) = false →
    config_of JSON_parse (clientId o) (redis w) = Some cfg →
    archive JSON_parse now o w =
      let w3 := admitted_world JSON_parse now o w in
      let crawler := crawlers w3 !! clientId o in
      let urls := batch_of o w in
      match run crawler urls o w3 with
      | (Ok s, w4) => (Ok (Dispatched crawler urls s), w4)
      | (Throw e, w4) => (Throw e, w4)
      end.
Proof.
  intros Hd Hlock Hcfg. unfold archive. cbv zeta.
  rewrite bind_unfold. unfold await at 1.
  fold (lock_key (listingUUID o)).
  rewrite (well_typed_GET _ _ Hd). cbv beta iota. rewrite Hlock. cbn [negb]. cbv iota.
  rewrite bind_unfold. unfold await at 1.
  unfold Redis.HGET. rewrite (well_typed_hash _ "userConfig" Hd) by done. cbv beta iota.
  rewrite bind_unfold.
  assert (parse_reply JSON_parse (hash_of "userConfig" (redis w) !! clientId o) w = (Ok cfg, w)) as ->.
  { unfold config_of in Hcfg. unfold parse_reply.
    destruct (hash_of "userConfig" (redis w) !! clientId o); [by rewrite Hcfg|].
    by injection Hcfg as <-. }
  cbv beta iota.
  rewrite bind_unfold. unfold await at 1.
  unfold Redis.ZSCORE. rewrite (well_typed_zset _ "crawlers" Hd) by done. cbv beta iota.
  rewrite bind_unfold. unfold await_write at 1. cbv beta iota. fold (locked_world now o w).
  rewrite bind_unfold, multi_exec_drain by by apply well_typed_SET_lock. cbv beta iota.
  rewrite bind_unfold. simpl as_array. unfold mret at 1, M_ret at 1. cbv beta iota.
  rewrite bind_unfold. unfold mret at 1, M_ret at 1. cbv beta iota.
  rewrite bind_unfold, detached_each_ok. cbv beta iota.
  change (detached_each _ _ (locked_world now o w)).2 with (drained_world (locked_world now o w)).
  rewrite !hash_of_SET_lock by done.
  fold (entry_of o). fold (batch_of o w).
  rewrite bind_unfold. unfold crawler_of at 1. cbv beta iota.
  unfold drained_world at 1. rewrite (proj1 (detached_each_process _ _ _)).
  change (crawlers (locked_world now o w)) with (crawlers w).
  fold (drained_world (locked_world now o w)).
  assert (limit_of JSON_parse (clientId o) (redis w) = js_or (crawlerLimit_of cfg) 1) as Hlim.
  { unfold limit_of. by rewrite Hcfg. }
  unfold admitted_world, launches. rewrite Hlim. fold (count_of (clientId o) (redis w)).
  set (w2 := drained_world (locked_world now o w)).
  destruct (crawlers w !! clientId o) as [c|] eqn:Ec.
  - destruct (negb _ || _).
    + rewrite bind_unfold, launch_and_register. cbv beta iota.
      rewrite bind_unfold. unfold crawler_of at 1. cbv beta iota.
      rewrite bind_unfold. by destruct (run_total (crawlers (launched_world (clientId o) w2) !! clientId o) (batch_of o w) o (launched_world (clientId o) w2)) as (s & w4 & ->).
    + rewrite bind_unfold. unfold mret at 1, M_ret at 1. cbv beta iota.
      rewrite bind_unfold. unfold crawler_of at 1. cbv beta iota.
      rewrite bind_unfold. by destruct (run_total (crawlers w2 !! clientId o) (batch_of o w) o w2) as (s & w4 & ->).
  - rewrite bind_unfold, launch_and_register. cbv beta iota.
    rewrite bind_unfold. unfold crawler_of at 1. cbv beta iota.
    rewrite bind_unfold. by destruct (run_total (crawlers (launched_world (clientId o) w2) !! clientId o) (batch_of o w) o (launched_world (clientId o) w2)) as (s & w4 & ->).
Qed.

End Unlocked.

(** ** The stages of an admitted call *)

Lemma drained_world_spec w :
  well_typed (redis w) →
  hash_of "queued" (redis (drained_world w)) = ∅
  ∧ (∀ k, k ≠ "queued" → redis (drained_world w) !! k = redis w !! k)
  ∧ well_typed (redis (drained_world w))
  ∧ crawlers (drained_world w) = crawlers w
  ∧ heap (drained_world w) = heap w.
Proof.
  intros Hd. unfold drained_world.
  destruct (drain_fields (map_to_list (hash_of "queued" (redis w))).*1 w)
    as (Hf & Hk & Ht); [by apply well_typed_hash|].
  split_and!; [|done|by apply Ht|apply detached_each_process..].
  apply map_eq. intros f. rewrite Hf, lookup_empty. case_decide as Hin; [done|].
  destruct (hash_of "queued" (redis w) !! f) as [v|] eqn:E; [|done].
  exfalso. apply Hin. apply list_elem_of_fmap. exists (f, v).
  split; [done|]. by apply elem_of_map_to_list.
Qed.

Lemma ZINCRBY_spec d t :
  well_typed d →
  Redis.ZINCRBY "crawlers" 1 t d =
    Ok (<["crawlers" := Redis.VZSet (<[t := count_of t d + 1]> (zset_of "crawlers" d))]> d).
Proof.
  intros Hd. unfold Redis.ZINCRBY. by rewrite (well_typed_zset _ "crawlers" Hd).
Qed.

Lemma launched_world_spec t w :
  well_typed (redis w) →
  redis (launched_world t w) =
    <["crawlers" := Redis.VZSet (<[t := count_of t (redis w) + 1]> (zset_of "crawlers" (redis w)))]> (redis w)
  ∧ crawlers (launched_world t w) = <[t := length (heap w)]> (crawlers w)
  ∧ heap (launched_world t w) = heap w ++ [{| running := false; requestQueue := [] |}].
Proof.
  intros Hd. unfold launched_world. rewrite bind_unfold, launchCrawler_eq.
  cbv beta iota. simpl. by rewrite ZINCRBY_spec.
Qed.

Lemma count_of_launched t t' w :
  well_typed (redis w) →
  count_of t' (redis (launched_world t w)) =
    if decide (t' = t) then count_of t (redis w) + 1 else count_of t' (redis w).
Proof.
  intros Hd. destruct (launched_world_spec t w Hd) as (-> & _).
  unfold count_of at 1. unfold zset_of at 1. rewrite lookup_insert_eq.
  case_decide as E; [subst; by rewrite lookup_insert_eq|].
  by rewrite lookup_insert_ne.
Qed.

Lemma well_typed_launched t w :
  well_typed (redis w) → well_typed (redis (launched_world t w)).
Proof.
  intros Hd. destruct (launched_world_spec t w Hd) as (-> & _).
  apply well_typed_insert; [by apply kind_ok_expected|done].
Qed.

(** ** [Array.from(new Set(...))] and the batch *)

Lemma Array_from_Set_acc (l acc : list string) :
  NoDup acc →
  let r := foldl (λ (seen : list string) (x : string),
                    if decide (x ∈ seen) then seen else seen ++ [x]) acc l in
  NoDup r ∧ ∀ x, x ∈ r ↔ x ∈ acc ∨ x ∈ l.
Proof.
  revert acc. induction l as [|y l IH]; intros acc Hacc; cbv zeta.
  - split; [done|]. intros x. rewrite elem_of_nil. tauto.
  - cbn [foldl]. destruct (decide (y ∈ acc)) as [Hy|Hy].
    + destruct (IH acc Hacc) as [Hnd Hin]. split; [done|].
      intros x. rewrite Hin, elem_of_cons.
      split; [tauto|]. intros [?|[->|?]]; tauto.
    + destruct (IH (acc ++ [y])) as [Hnd Hin].
      { apply NoDup_app. split_and!; [done| |apply NoDup_singleton].
        intros x Hx ->%list_elem_of_singleton. done. }
      split; [done|]. intros x.
      rewrite Hin, elem_of_app, list_elem_of_singleton, elem_of_cons. tauto.
Qed.

Lemma NoDup_Array_from_Set l : NoDup (Array_from_Set l).
Proof. apply (Array_from_Set_acc l []). apply NoDup_nil_2. Qed.

Lemma elem_of_Array_from_Set l x : x ∈ Array_from_Set l ↔ x ∈ l.
Proof.
  unfold Array_from_Set.
  rewrite (proj2 (Array_from_Set_acc l [] (NoDup_nil_2)) x), elem_of_nil. tauto.
Qed.

Lemma entry_of_nonempty o : entry_of o ≠ "".
Proof. unfold entry_of. by destruct (listingUUID o). Qed.

Lemma elem_of_batch_of o w m :
  m ∈ batch_of o w ↔
  m ≠ "" ∧ (m = entry_of o ∨ ∃ t, hash_of "queued" (redis w) !! t = Some m).
Proof.
  unfold batch_of. rewrite list_elem_of_filter, elem_of_Array_from_Set, elem_of_app.
  rewrite list_elem_of_singleton, list_elem_of_fmap.
  split.
  - intros (Hne & [((t & v) & -> & Hin%elem_of_map_to_list)| ->]); eauto.
  - intros (Hne & [->|(t & Ht)]); split; auto.
    left. exists (t, m). split; [done|]. by apply elem_of_map_to_list.
Qed.

Lemma entry_in_batch o w : entry_of o ∈ batch_of o w.
Proof. apply elem_of_batch_of. split; [apply entry_of_nonempty|by left]. Qed.

Lemma NoDup_batch_of o w : NoDup (batch_of o w).
Proof. apply NoDup_filter, NoDup_Array_from_Set. Qed.

Section Admission.

Variable JSON_parse : string → option UserConfig.

Lemma admitted_world_spec now o w :
  well_typed (redis w) →
  let w3 := admitted_world JSON_parse now o w in
  let t := clientId o in
  redis w3 !! lock_key (listingUUID o) = Some (Redis.VString now (Some 30))
  ∧ hash_of "queued" (redis w3) = ∅
  ∧ (∀ k, k ≠ lock_key (listingUUID o) → k ≠ "queued" → k ≠ "crawlers" →
          redis w3 !! k = redis w !! k)
  ∧ (∀ t', count_of t' (redis w3) =
            if launches JSON_parse t w && bool_decide (t' = t)
            then count_of t' (redis w) + 1 else count_of t' (redis w))
  ∧ crawlers w3 =
      (if launches JSON_parse t w then <[t := length (heap w)]> (crawlers w) else crawlers w)
  ∧ heap w3 =
      (if launches JSON_parse t w
       then heap w ++ [{| running := false; requestQueue := [] |}] else heap w)
  ∧ well_typed (redis w3).
Proof.
  intros Hd. cbv zeta. unfold admitted_world.
  set (w1 := locked_world now o w).
  assert (well_typed (redis w1)) as Hd1 by by apply well_typed_SET_lock.
  destruct (drained_world_spec w1 Hd1) as (Hq & Hk & Hd2 & Hc & Hh).
  set (w2 := drained_world w1) in *.
  assert (redis w2 !! lock_key (listingUUID o) = Some (Redis.VString now (Some 30))) as Hlock.
  { rewrite Hk by by apply lock_key_ne. apply lookup_insert_eq. }
  assert (∀ t', count_of t' (redis w2) = count_of t' (redis w)) as Hcount.
  { intros t'. unfold count_of, zset_of. rewrite Hk by done.
    unfold w1, locked_world. simpl. by rewrite lookup_SET_ne by by apply lock_key_ne. }
  destruct (launches JSON_parse (clientId o) w).
  - destruct (launched_world_spec (clientId o) w2 Hd2) as (Hr & Hc' & Hh').
    split_and!.
    + rewrite Hr, lookup_insert_ne; [done|]. intros E. symmetry in E. revert E. by apply lock_key_ne.
    + unfold hash_of. rewrite Hr, lookup_insert_ne by done. apply Hq.
    + intros k ? ? ?. rewrite Hr, lookup_insert_ne, Hk by done.
      unfold w1, locked_world. simpl. by rewrite lookup_SET_ne.
    + intros t'. rewrite count_of_launched, !Hcount by done. simpl.
      case_decide; [by rewrite bool_decide_true; subst|by rewrite bool_decide_false].
    + by rewrite Hc', Hc, Hh.
    + by rewrite Hh', Hh.
    + by apply well_typed_launched.
  - split_and!; [done|done| |done|done|done|done].
    intros k ? ? ?. rewrite Hk by done.
    unfold w1, locked_world. simpl. by rewrite lookup_SET_ne.
Qed.

End Admission.

(** ** The lock gate of [archive] *)

(** With the lock not held and a configuration that is not JSON,
    [JSON.parse] throws before anything is written. *)
Lemma archive_parse_fails (JSON_parse : string → option UserConfig) now o w :
  well_typed (redis w) →
  truthy_string (lock_of (listingUUID o) (redis w)) = false →
  config_of JSON_parse (clientId o) (redis w) = None →
  archive JSON_parse now o w = (Throw SyntaxError, w).
Proof.
  intros Hd Hlock Hcfg. unfold archive. cbv zeta.
  rewrite bind_unfold. unfold await at 1.
  fold (lock_key (listingUUID o)).
  rewrite (well_typed_GET _ _ Hd). cbv beta iota. rewrite Hlock. cbn [negb]. cbv iota.
  rewrite bind_unfold. unfold await at 1.
  unfold Redis.HGET. rewrite (well_typed_hash _ "userConfig" Hd) by done. cbv beta iota.
  rewrite bind_unfold. unfold config_of in Hcfg. unfold parse_reply.
  destruct (hash_of "userConfig" (redis w) !! clientId o); [by rewrite Hcfg|done].
Qed.

(** An admitted call hands the batch to the tenant's crawler. *)
Lemma archive_dispatches (JSON_parse : string → option UserConfig) now o w cfg :
  well_formed w →
  truthy_string (lock_of (listingUUID o) (redis w)) = false →
  config_of JSON_parse (clientId o) (redis w) = Some cfg →
  let w1 := admitted_world JSON_parse now o w in
  ∃ c cr status w',
    crawlers w1 !! clientId o = Some c
    ∧ heap w1 !! c = Some cr
    ∧ run (Some c) (batch_of o w) o w1 = (Ok status, w')
    ∧ archive JSON_parse now o w = (Ok (Dispatched (Some c) (batch_of o w) status), w')
    ∧ heap w' !! c =
        Some {| running := true;
                requestQueue := requestQueue cr ++ requests_of (batch_of o w) o |}.
Proof.
  intros [Hd Hreg] Hlock Hcfg. cbv zeta.
  rewrite (archive_unlocked JSON_parse now o w cfg Hd Hlock Hcfg). cbv zeta.
  destruct (admitted_world_spec JSON_parse now o w Hd)
    as (Hset & _ & _ & _ & Hc & Hh & _).
  set (w3 := admitted_world JSON_parse now o w) in *.
  assert (∃ c cr, crawlers w3 !! clientId o = Some c ∧ heap w3 !! c = Some cr)
    as (c & cr & Ec & Ecr).
  { rewrite Hc, Hh. unfold launches.
    destruct (crawlers w !! clientId o) as [c|] eqn:E.
    - destruct (negb _ || _).
      + exists (length (heap w)), {| running := false; requestQueue := [] |}.
        rewrite lookup_insert_eq. split; [done|]. by apply list_lookup_middle.
      + destruct (lookup_lt_is_Some_2 (heap w) c) as [cr Hcr]; [by eapply Hreg|].
        by exists c, cr.
    - exists (length (heap w)), {| running := false; requestQueue := [] |}.
      rewrite lookup_insert_eq. split; [done|]. by apply list_lookup_middle. }
  rewrite Ec. pose proof (run_eq c cr (batch_of o w) o w3 Ecr) as Hrun.
  cbv zeta in Hrun. rewrite Hrun.
  exists c, cr. destruct (running cr); do 2 eexists;
    (split_and!; [done|done|done|done|]).
  + rewrite release_eq. simpl. apply list_lookup_insert_eq. by eapply lookup_lt_Some.
  + simpl. apply list_lookup_insert_eq. by eapply lookup_lt_Some.
Qed.

(** C1, as stated, fails in two ways. With the key absent and a
    configuration of the tenant that is not JSON, [JSON.parse] throws
    before the [SET]: the call sets no lock and dispatches nothing. With
    the key present and holding the empty string, [!isRunning] holds: the
    call queues nothing, sets the lock and dispatches. *)
Lemma lock_gate_misses_two_cases :
  (redis bad_config_example !! lock_key "u1" = None
   ∧ archive parse_limit_example "11/2/2026, 7:49:00 PM" request_example bad_config_example
     = (Throw SyntaxError, bad_config_example))
  ∧ (redis empty_lock_example !! lock_key "u1" = Some (Redis.VString "" None)
     ∧ ∃ w', archive parse_limit_example "11/2/2026, 7:49:00 PM" request_example
               empty_lock_example
             = (Ok (Dispatched (Some 0%nat) ["u1 https://example.org/ad/1"]
                      (Awaiting 0 [Some "u1"])), w')
             ∧ redis w' !! lock_key "u1"
               = Some (Redis.VString "11/2/2026, 7:49:00 PM" (Some 30))
             ∧ redis w' !! "queued" = None
             ∧ heap w' = [{| running := true;
                             requestQueue :=
                               [{| url := Some "https://example.org/ad/1";
                                   userData := request_example |}] |}]).
Proof.
  split; [split; vm_compute; reflexivity|].
  split; [vm_compute; reflexivity|].
  eexists. split; [vm_compute; reflexivity|].
  split_and!; vm_compute; reflexivity.
Qed.

(** C1, amended. On a store whose keys hold the kinds of value the worker
    keeps there: a call of [archive] that finds a non-empty string under
    [running-<listingUUID>] stores ["<listingUUID> <listingURL>"] in the
    tenant's field of [queued] and does nothing else (no key but [queued]
    changes, no crawler is created or handed a request). A call that
    finds the key absent, or holding the empty string, reads the
    configuration of the tenant: when it is missing or parses as JSON, the
    call sets the key to the timestamp with an expiry of 30 seconds and
    then calls [run] with the tenant's crawler and a batch that contains
    the request's entry, so that the crawler holds the requests of the
    batch; when it does not parse, the call throws the [SyntaxError] and
    has changed nothing. *)
Theorem archive_lock_gate (JSON_parse : string → option UserConfig) now o w :
  well_formed w →
  (∀ v, lock_of (listingUUID o) (redis w) = Some v → v ≠ "" →
     ∃ w', archive JSON_parse now o w = (Ok Queued, w')
           ∧ hash_of "queued" (redis w') !! clientId o = Some (entry_of o)
           ∧ (∀ k, k ≠ "queued" → redis w' !! k = redis w !! k)
           ∧ crawlers w' = crawlers w
           ∧ heap w' = heap w)
  ∧ (redis w !! lock_key (listingUUID o) = None
     ∨ lock_of (listingUUID o) (redis w) = Some "" →
     (∀ cfg, config_of JSON_parse (clientId o) (redis w) = Some cfg →
        ∃ w1 c cr status w',
          redis w1 !! lock_key (listingUUID o) = Some (Redis.VString now (Some 30))
          ∧ crawlers w1 !! clientId o = Some c
          ∧ heap w1 !! c = Some cr
          ∧ entry_of o ∈ batch_of o w
          ∧ run (Some c) (batch_of o w) o w1 = (Ok status, w')
          ∧ archive JSON_parse now o w
            = (Ok (Dispatched (Some c) (batch_of o w) status), w')
          ∧ heap w' !! c =
              Some {| running := true;
                      requestQueue := requestQueue cr ++ requests_of (batch_of o w) o |})
     ∧ (config_of JSON_parse (clientId o) (redis w) = None →
        archive JSON_parse now o w = (Throw SyntaxError, w))).
Proof.
  intros [Hd Hreg]. split.
  - intros v Hv Hne. eexists. split.
    { apply archive_locked; [done|]. rewrite Hv. apply truthy_string_true. eauto. }
    simpl. split_and!; [|by intros; rewrite lookup_insert_ne|done..].
    unfold hash_of at 1. by rewrite !lookup_insert_eq.
  - intros Hfree.
    assert (truthy_string (lock_of (listingUUID o) (redis w)) = false) as Hlock.
    { destruct Hfree as [Hfree|Hfree]; [|by rewrite Hfree].
      unfold lock_of. by rewrite Hfree. }
    split.
    + intros cfg Hcfg.
      destruct (archive_dispatches JSON_parse now o w cfg (conj Hd Hreg) Hlock Hcfg)
        as (c & cr & status & w' & Ec & Ecr & Hrun & Harchive & Hheap).
      destruct (admitted_world_spec JSON_parse now o w Hd) as (Hset & _).
      exists (admitted_world JSON_parse now o w), c, cr, status, w'.
      split_and!; [done|done|done|apply entry_in_batch|done|done|done].
    + intros Hcfg. by apply archive_parse_fails.
Qed.

Lemma archive_lock_gate_witness :
  (∃ w', archive parse_limit_example "11/2/2026, 7:49:00 PM" request_example locked_example
         = (Ok Queued, w')
         ∧ hash_of "queued" (redis w') !! "t1" = Some "u1 https://example.org/ad/1")
  ∧ (∃ c urls status w',
       archive parse_limit_example "11/2/2026, 7:49:00 PM" request_example fresh_example
       = (Ok (Dispatched (Some c) urls status), w'))
  ∧ (∃ c urls status w',
       archive parse_limit_example "11/2/2026, 7:49:00 PM" request_example
         empty_lock_example
       = (Ok (Dispatched (Some c) urls status), w'))
  ∧ archive parse_limit_example "11/2/2026, 7:49:00 PM" request_example bad_config_example
    = (Throw SyntaxError, bad_config_example).
Proof.
  assert (∀ w, crawlers w = ∅ → registry_ok w) as Hreg.
  { intros w E t c H. by rewrite E, lookup_empty in H. }
  split_and!.
  - assert (well_formed locked_example) as Hwf.
    { split; [|by apply Hreg]. apply map_Forall_singleton. by intros kd [= <-]. }
    destruct (proj1 (archive_lock_gate parse_limit_example "11/2/2026, 7:49:00 PM"
                       request_example locked_example Hwf)
                "11/2/2026, 7:48:00 PM") as (w' & E & Hq & _); [done|done|].
    exists w'. split; [exact E|exact Hq].
  - assert (well_formed fresh_example) as Hwf.
    { split; [apply well_typed_empty|by apply Hreg]. }
    destruct (proj1 (proj2 (archive_lock_gate parse_limit_example "11/2/2026, 7:49:00 PM"
                              request_example fresh_example Hwf)
                       (or_introl eq_refl)) ConfigNull eq_refl)
      as (w1 & c & cr & status & w' & _ & _ & _ & _ & _ & E & _).
    exists c, (batch_of request_example fresh_example), status, w'. exact E.
  - assert (well_formed empty_lock_example) as Hwf.
    { split; [|by apply Hreg]. apply map_Forall_singleton. by intros kd [= <-]. }
    destruct (proj1 (proj2 (archive_lock_gate parse_limit_example "11/2/2026, 7:49:00 PM"
                              request_example empty_lock_example Hwf)
                       (or_intror eq_refl)) ConfigNull eq_refl)
      as (w1 & c & cr & status & w' & _ & _ & _ & _ & _ & E & _).
    exists c, (batch_of request_example empty_lock_example), status, w'. exact E.
  - assert (well_formed bad_config_example) as Hwf.
    { split; [|by apply Hreg]. apply map_Forall_singleton. by intros kd [= <-]. }
    exact (proj2 (proj2 (archive_lock_gate parse_limit_example "11/2/2026, 7:49:00 PM"
                           request_example bad_config_example Hwf)
                    (or_introl eq_refl)) eq_refl).
Defined.

(** ** Releasing the locks of a batch *)

Lemma split_entry (uuid rest : string) :
  no_space uuid = true → split " " (uuid +:+ " " +:+ rest) !! 0%nat = Some uuid.
Proof.
  induction uuid as [|c uuid IH]; intros H.
  - done.
  - simpl in H. apply andb_true_iff in H as [Hc Hs].
    apply negb_true_iff in Hc. specialize (IH Hs).
    change (String c uuid +:+ " " +:+ rest) with (String c (uuid +:+ " " +:+ rest)).
    cbn [split]. rewrite Hc.
    destruct (split " " (uuid +:+ " " +:+ rest)) as [|h t]; [done|].
    simpl in *. by injection IH as ->.
Qed.

Lemma release_releases uuids w uuid :
  uuid ∈ uuids → redis (release uuids w).2 !! ("running-" +:+ interpolate uuid) = None.
Proof.
  intros Hin. rewrite release_lookup, decide_True; [done|].
  unfold released. apply list_elem_of_fmap. by exists uuid.
Qed.

Lemma split_head s : split " " s !! 0%nat = Some (first_word s).
Proof.
  induction s as [|c s IH]; [done|]. cbn [split first_word].
  destruct (Ascii.eqb c " "); [done|].
  destruct (split " " s) as [|h t]; [done|]. simpl in *. by injection IH as ->.
Qed.

Lemma split_after (u rest : string) :
  no_space u = true → split " " (u +:+ " " +:+ rest) = u :: split " " rest.
Proof.
  induction u as [|c u IH]; intros H; [done|].
  simpl in H. apply andb_true_iff in H as [Hc Hs]. apply negb_true_iff in Hc.
  change (String c u +:+ " " +:+ rest) with (String c (u +:+ " " +:+ rest)).
  cbn [split]. by rewrite Hc, (IH Hs).
Qed.

Lemma no_space_first_word s : no_space (first_word s) = true.
Proof.
  induction s as [|c s IH]; [done|]. cbn [first_word].
  destruct (Ascii.eqb c " ") eqn:E; [done|]. simpl. by rewrite E, IH.
Qed.

Lemma first_word_id s : no_space s = true → first_word s = s.
Proof.
  induction s as [|c s IH]; [done|]. simpl. intros [Hc Hs]%andb_true_iff.
  apply negb_true_iff in Hc. by rewrite Hc, IH.
Qed.

Lemma lock_key_inj a b : "running-" +:+ a = "running-" +:+ b → a = b.
Proof. intros H. by injection H. Qed.





(** ** The batch of an admitted call *)

(** C9, as stated, fails: with ["u0 https://example.org/ad/0"] parked by
    an earlier request, the call for [u1] hands the crawler that url
    tagged with the options of [u1]. *)
Lemma drained_url_tagged_with_trigger :
  ∃ status w',
    archive (λ _, None) "11/2/2026, 7:49:00 PM" request_example parked_example
    = (Ok (Dispatched (Some 0%nat)
             ["u0 https://example.org/ad/0"; "u1 https://example.org/ad/1"] status), w')
    ∧ heap w' !! 0%nat =
        Some {| running := true;
                requestQueue :=
                  [ {| url := Some "https://example.org/ad/0"; userData := request_example |};
                    {| url := Some "https://example.org/ad/1"; userData := request_example |} ] |}
    ∧ ¬ tagged_with_origin
          ["u0 https://example.org/ad/0"; "u1 https://example.org/ad/1"]
          [ {| url := Some "https://example.org/ad/0"; userData := request_example |};
            {| url := Some "https://example.org/ad/1"; userData := request_example |} ].
Proof.
  do 2 eexists. split; [vm_compute; reflexivity|].
  split; [reflexivity|].
  intros H. apply Forall2_cons_1 in H as [H _]. vm_compute in H. discriminate H.
Qed.

(** C9, amended. An admitted call hands its crawler one request per entry
    of the batch, drained entries included, each with the url cut from
    the entry and all with the options of the call itself. *)
Theorem dispatch_tags_with_trigger (JSON_parse : string → option UserConfig) now o w cfg :
  well_formed w →
  redis w !! lock_key (listingUUID o) = None →
  config_of JSON_parse (clientId o) (redis w) = Some cfg →
  ∃ c status w' old,
    archive JSON_parse now o w = (Ok (Dispatched (Some c) (batch_of o w) status), w')
    ∧ heap w' !! c =
        Some {| running := true;
                requestQueue := old ++ requests_of (batch_of o w) o |}
    ∧ Forall2 (λ m r, url r = split " " m !! 1%nat ∧ userData r = o)
              (batch_of o w) (requests_of (batch_of o w) o).
Proof.
  intros Hwf Hfree Hcfg.
  assert (truthy_string (lock_of (listingUUID o) (redis w)) = false) as Hlock.
  { unfold lock_of. by rewrite Hfree. }
  destruct (archive_dispatches JSON_parse now o w cfg Hwf Hlock Hcfg)
    as (c & cr & status & w' & _ & _ & _ & Harchive & Hheap).
  exists c, status, w', (requestQueue cr). split_and!; [done|done|].
  unfold requests_of. apply Forall2_fmap_r, Forall_Forall2_diag, Forall_forall.
  by intros m _.
Qed.

Lemma dispatch_tags_with_trigger_witness :
  ∃ c status w' old,
    archive (λ _, None) "11/2/2026, 7:49:00 PM" request_example parked_example
    = (Ok (Dispatched (Some c) (batch_of request_example parked_example) status), w')
    ∧ heap w' !! c =
        Some {| running := true;
                requestQueue := old ++ requests_of (batch_of request_example parked_example)
                                                   request_example |}
    ∧ Forall2 (λ m r, url r = split " " m !! 1%nat ∧ userData r = request_example)
              (batch_of request_example parked_example)
              (requests_of (batch_of request_example parked_example) request_example).
Proof.
  apply (dispatch_tags_with_trigger (λ _, None) _ _ _ ConfigNull).
  - split.
    + apply map_Forall_singleton. by intros kd [= <-].
    + intros t c H. simpl in H. by rewrite lookup_empty in H.
  - reflexivity.
  - reflexivity.
Defined.

(** C7, as stated, fails: with the url of the request parked under
    another uuid, the batch holds that url twice. *)
Lemma batch_repeats_url :
  ∃ status w',
    archive (λ _, None) "11/2/2026, 7:49:00 PM" request_example same_url_example
    = (Ok (Dispatched (Some 0%nat)
             ["u0 https://example.org/ad/1"; "u1 https://example.org/ad/1"] status), w')
    ∧ ¬ NoDup (urls_of ["u0 https://example.org/ad/1"; "u1 https://example.org/ad/1"]).
Proof.
  do 2 eexists. split; [vm_compute; reflexivity|].
  intros H. apply NoDup_cons_1_1 in H. apply H. vm_compute. apply list_elem_of_here.
Qed.

(** C7, amended. The batch of an admitted call contains the entry of the
    request, contains the tenant's parked entry when that is not the
    empty string, and holds no entry twice, entries being compared as
    whole ["<uuid> <url>"] strings. *)
Theorem batch_merges_by_entry (JSON_parse : string → option UserConfig) now o w cfg :
  well_formed w →
  redis w !! lock_key (listingUUID o) = None →
  config_of JSON_parse (clientId o) (redis w) = Some cfg →
  ∃ c status w',
    archive JSON_parse now o w = (Ok (Dispatched (Some c) (batch_of o w) status), w')
    ∧ entry_of o ∈ batch_of o w
    ∧ (∀ m, hash_of "queued" (redis w) !! clientId o = Some m → m ≠ "" → m ∈ batch_of o w)
    ∧ NoDup (batch_of o w)
    ∧ "" ∉ batch_of o w.
Proof.
  intros Hwf Hfree Hcfg.
  assert (truthy_string (lock_of (listingUUID o) (redis w)) = false) as Hlock.
  { unfold lock_of. by rewrite Hfree. }
  destruct (archive_dispatches JSON_parse now o w cfg Hwf Hlock Hcfg)
    as (c & cr & status & w' & _ & _ & _ & Harchive & _).
  exists c, status, w'. split_and!; [done|apply entry_in_batch| |apply NoDup_batch_of|].
  - intros m Hm Hne. apply elem_of_batch_of. split; [done|]. right. by exists (clientId o).
  - intros [H _]%elem_of_batch_of. done.
Qed.

Lemma batch_merges_by_entry_witness :
  ∃ c status w',
    archive (λ _, None) "11/2/2026, 7:49:00 PM" request_example same_url_example
    = (Ok (Dispatched (Some c) (batch_of request_example same_url_example) status), w')
    ∧ entry_of request_example ∈ batch_of request_example same_url_example
    ∧ (∀ m, hash_of "queued" (redis same_url_example) !! clientId request_example = Some m →
            m ≠ "" → m ∈ batch_of request_example same_url_example)
    ∧ NoDup (batch_of request_example same_url_example)
    ∧ "" ∉ batch_of request_example same_url_example.
Proof.
  apply (batch_merges_by_entry (λ _, None) _ _ _ ConfigNull).
  - split.
    + apply map_Forall_singleton. by intros kd [= <-].
    + intros t c H. simpl in H. by rewrite lookup_empty in H.
  - reflexivity.
  - reflexivity.
Defined.

(** C6: the drain of an admitted call empties [queued] for every tenant.
    With entries parked for [t1] and [t2], the call of [t1] takes the
    entry of [t2] into its batch and leaves [t2] nothing. *)
Theorem drain_takes_every_tenants_entry :
  ∃ status w',
    archive (λ _, None) "11/2/2026, 7:49:00 PM" request_example two_tenants_example
    = (Ok (Dispatched (Some 0%nat)
             ["u0 https://example.org/ad/0"; "u9 https://example.org/ad/9";
              "u1 https://example.org/ad/1"] status), w')
    ∧ hash_of "queued" (redis two_tenants_example) !! "t2" = Some "u9 https://example.org/ad/9"
    ∧ hash_of "queued" (redis w') !! "t2" = None.
Proof.
  do 2 eexists. split; [vm_compute; reflexivity|]. split; reflexivity.
Qed.

(** ** The reset *)

Lemma glob_star s : Redis.glob ["*"%char] s = true.
Proof.
  cbn [Redis.glob Ascii.eqb Bool.eqb]. induction s as [|c s IH]; [done|].
  by rewrite IH, orb_true_r.
Qed.

Lemma matches_lock_key u : Redis.matches "running-*" (lock_key u) = true.
Proof.
  unfold Redis.matches, lock_key.
  change (list_ascii_of_string ("running-" +:+ u))
    with (list_ascii_of_string "running-" ++ list_ascii_of_string u).
  cbn -[Redis.glob]. 
  change (Redis.glob ["*"%char] (list_ascii_of_string u) = true).
  apply glob_star.
Qed.

Lemma elem_of_ranked (z : gmap string Z) m : m ∈ Redis.ranked z ↔ is_Some (z !! m).
Proof.
  unfold Redis.ranked. rewrite list_elem_of_fmap. split.
  - intros ((m' & score) & -> & Hin). rewrite merge_sort_Permutation in Hin.
    apply elem_of_map_to_list in Hin. by exists score.
  - intros (score & Hs). exists (m, score). split; [done|].
    rewrite merge_sort_Permutation. by apply elem_of_map_to_list.
Qed.

Lemma ZREMRANGEBYRANK_all d :
  well_typed d →
  Redis.ZREMRANGEBYRANK "crawlers" 0 (-1) d = Ok (delete "crawlers" d).
Proof.
  intros Hd. unfold Redis.ZREMRANGEBYRANK.
  rewrite (well_typed_zset _ "crawlers" Hd) by done.
  set (z := zset_of "crawlers" d). set (l := Redis.ranked z).
  cbv zeta. unfold Redis.rank_index. cbn [Z.ltb Z.compare].
  replace (Z.max 0 0) with 0 by lia.
  replace (Z.min (Z.of_nat (length l) - 1) (Z.of_nat (length l) + -1))
    with (Z.of_nat (length l) - 1) by lia.
  replace (Z.to_nat (Z.of_nat (length l) - 1 - 0 + 1)) with (length l) by lia.
  rewrite drop_0, take_ge by done.
  assert (foldr delete z l = ∅) as ->.
  { apply map_eq. intros m. rewrite lookup_empty.
    destruct (z !! m) as [score|] eqn:E.
    - apply lookup_foldr_delete. apply elem_of_ranked. by rewrite E.
    - rewrite lookup_foldr_delete_not_elem_of; [done|].
      intros [? H]%elem_of_ranked. by rewrite E in H. }
  unfold Redis.put_zset. by rewrite decide_True.
Qed.

Lemma Promise_all_DEL (keys : list string) (surplus : list Z) w :
  (Promise_all ((λ key, DEL_call key surplus) <$> keys) w).1 = Ok ()
  ∧ (∀ k, redis (Promise_all ((λ key, DEL_call key surplus) <$> keys) w).2 !! k =
          if decide (k ∈ keys) then None else redis w !! k)
  ∧ crawlers (Promise_all ((λ key, DEL_call key surplus) <$> keys) w).2 = crawlers w
  ∧ heap (Promise_all ((λ key, DEL_call key surplus) <$> keys) w).2 = heap w.
Proof.
  revert w. induction keys as [|x keys IH]; intros w.
  - split_and!; [done| |done..]. intros k. by rewrite decide_False by apply not_elem_of_nil.
  - rewrite fmap_cons. cbn [Promise_all]. unfold DEL_call at 1 3 5 7.
    destruct (IH (with_redis (Redis.DEL x (redis w)) w)) as (H1 & H2 & H3 & H4).
    split_and!; [done| |done..].
    intros k. rewrite H2. simpl. unfold Redis.DEL.
    destruct (decide (k = x)) as [->|Hne].
    + rewrite lookup_delete_eq, (decide_True (P := x ∈ x :: keys)) by apply list_elem_of_here.
      by case_decide.
    + rewrite lookup_delete_ne by done.
      destruct (decide (k ∈ keys)) as [Hin|Hin].
      * by rewrite decide_True by by apply list_elem_of_further.
      * rewrite decide_False; [done|]. by intros [?|?]%elem_of_cons.
Qed.

Lemma elem_of_KEYS pattern d k :
  k ∈ Redis.KEYS pattern d ↔ Redis.matches pattern k = true ∧ is_Some (d !! k).
Proof.
  unfold Redis.KEYS. rewrite list_elem_of_filter, list_elem_of_fmap.
  split.
  - intros (Hm & (k' & v) & -> & Hin%elem_of_map_to_list). split; [done|by exists v].
  - intros (Hm & v & Hv). split; [done|]. exists (k, v). split; [done|].
    by apply elem_of_map_to_list.
Qed.

(** What the reset leaves of a store: the keys that are not [crawlers] and
    match neither [queued-*] nor [running-*]. *)
Lemma on_SIGUSR2_spec w :
  well_typed (redis w) →
  (on_SIGUSR2 w).1 = Ok ()
  ∧ (∀ k, redis (on_SIGUSR2 w).2 !! k =
          if decide (k = "crawlers" ∨ Redis.matches "queued-*" k = true
                     ∨ Redis.matches "running-*" k = true)
          then None else redis w !! k)
  ∧ crawlers (on_SIGUSR2 w).2 = crawlers w
  ∧ heap (on_SIGUSR2 w).2 = heap w.
Proof.
  intros Hd.
  assert (on_SIGUSR2 w =
          Promise_all
            (Redis.ZREMRANGEBYRANK "crawlers" 0 (-1)
               :: ((λ key, DEL_call key [0; -1])
                     <$> Redis.KEYS "queued-*" (redis w) ++ Redis.KEYS "running-*" (redis w)))
            w) as ->.
  { rewrite fmap_app. reflexivity. }
  cbn [Promise_all]. rewrite (ZREMRANGEBYRANK_all _ Hd).
  set (keys := Redis.KEYS "queued-*" (redis w) ++ Redis.KEYS "running-*" (redis w)).
  destruct (Promise_all_DEL keys [0; -1] (with_redis (delete "crawlers" (redis w)) w))
    as (H1 & H2 & H3 & H4).
  split_and!; [done| |done..].
  intros k. rewrite H2. simpl. unfold keys. 
  destruct (decide (k = "crawlers")) as [->|Hk].
  - rewrite lookup_delete_eq, (decide_True (P := _ ∨ _)) by by left. by case_decide.
  - rewrite lookup_delete_ne by done.
    destruct (decide (k ∈ _)) as [Hin|Hin].
    + rewrite decide_True; [done|]. right.
      apply elem_of_app in Hin as [[? _]%elem_of_KEYS|[? _]%elem_of_KEYS]; auto.
    + destruct (redis w !! k) as [v|] eqn:E; [|by case_decide].
      rewrite decide_False; [done|]. intros [?|[Hm|Hm]]; [done|..]; apply Hin.
      * apply elem_of_app. left. apply elem_of_KEYS. by rewrite E.
      * apply elem_of_app. right. apply elem_of_KEYS. by rewrite E.
Qed.

(** C8: the reset looks for queue keys under [queued-*], and the queue is
    the hash [queued]. In the scenario of one lock [running-abc], one
    entry queued for [t1] and one recorded crawler, the reset deletes the
    lock and the sorted set and leaves the queued entry where it was. *)
Theorem reset_keeps_queued_entries :
  ∃ w',
    on_SIGUSR2 reset_example = (Ok (), w')
    ∧ redis w' !! "running-abc" = None
    ∧ redis w' !! "crawlers" = None
    ∧ hash_of "queued" (redis reset_example) !! "t1" = Some "abc https://example.org/ad/1"
    ∧ hash_of "queued" (redis w') !! "t1" = Some "abc https://example.org/ad/1".
Proof.
  eexists. split; [vm_compute; reflexivity|]. by split_and!.
Qed.

(** ** The listener of ['crawled'] *)

(** The loop of [addSetItem] has fuel for every iteration its test
    allows. *)
Lemma for_loop_exhausts {A} (body : A → A) bound fuel i a :
  0 ≤ i → default 0 (ToNumber bound) ≤ Z.of_nat fuel + i →
  ∃ j a', for_loop fuel i bound body a = a' ∧ js_lt (Num j) bound = false ∧ i ≤ j.
Proof.
  revert i a. induction fuel as [|fuel IH]; intros i a Hi Hfuel.
  - exists i, a. split_and!; [done| |lia].
    unfold js_lt. simpl. destruct (ToNumber bound) as [n|]; [|done].
    simpl in Hfuel. apply Z.ltb_ge. lia.
  - cbn [for_loop]. destruct (js_lt (Num i) bound) eqn:E.
    + destruct (IH (i + 1) (body a)) as (j & a' & ? & ? & ?); [lia|lia|].
      exists j, a'. split_and!; [done|done|lia].
    + exists i, a. split_and!; [done|done|lia].
Qed.

(** [currentSize] is the queue, never a number: nothing is ever popped. *)
Lemma addSetItem_eq multi setKey item maxSize :
  addSetItem multi setKey item maxSize
  = multi ++ [Redis.cSCARD setKey; Redis.cSADD setKey item].
Proof.
  unfold addSetItem. simpl. symmetry.
  apply (app_assoc multi [Redis.cSCARD setKey] [Redis.cSADD setKey item]).
Qed.

Lemma run_HSET d k f v :
  Redis.hash_at k d = Ok (hash_of k d) →
  ∃ n, Redis.run_command (Redis.cHSET k f v) d
       = (Redis.RInt n, <[k := Redis.VHash (<[f := v]> (hash_of k d))]> d).
Proof.
  intros E. cbn [Redis.run_command]. unfold Redis.HSET. rewrite E. eauto.
Qed.

Lemma run_SCARD d k :
  Redis.set_at k d = Ok (set_of k d) →
  Redis.run_command (Redis.cSCARD k) d = (Redis.RInt (Z.of_nat (size (set_of k d))), d).
Proof.
  intros E. cbn [Redis.run_command]. unfold Redis.SCARD. by rewrite E.
Qed.

Lemma run_SADD d k m :
  Redis.set_at k d = Ok (set_of k d) →
  ∃ n, Redis.run_command (Redis.cSADD k m) d
       = (Redis.RInt n, <[k := Redis.VSet ({[m]} ∪ set_of k d)]> d).
Proof.
  intros E. cbn [Redis.run_command]. unfold Redis.SADD. rewrite E. eauto.
Qed.

Lemma on_crawled_eq save parse date_now p w gitUrl metadata :
  well_typed (redis w) →
  save (listingURL (crawled_options p)) (html p) (imageUrls p) = Ok gitUrl →
  parse (html p) = Ok metadata →
  on_crawled save parse date_now p w =
    (Ok (archived (JObj (payload_fields p ++ [("gitUrl", JStr gitUrl)]))),
     with_redis
       (<["recent_listings" :=
            Redis.VSet ({[ recent_of metadata date_now p ]} ∪ set_of "recent_listings" (redis w))]>
          (<["archives" :=
               Redis.VHash (<[listingPid (crawled_options p) :=
                                JSON_stringify (JObj (payload_fields p))]>
                              (hash_of "archives" (redis w)))]> (redis w)))
       w).
Proof.
  intros Hd Hsave Hparse. unfold on_crawled. cbv zeta.
  rewrite bind_unfold. unfold lift at 1. rewrite Hsave. cbv beta iota.
  rewrite bind_unfold. unfold toRecentListing. rewrite bind_unfold.
  unfold lift at 1. rewrite Hparse. cbv beta iota. unfold mret at 1, M_ret at 1.
  cbv beta iota. rewrite addSetItem_eq. rewrite bind_unfold.
  fold (recent_of metadata date_now p).
  set (d1 := <["archives" := Redis.VHash (<[listingPid (crawled_options p) :=
                 JSON_stringify (JObj (payload_fields p))]> (hash_of "archives" (redis w)))]> (redis w)).
  assert (Redis.set_at "recent_listings" d1 = Ok (set_of "recent_listings" d1)
          ∧ set_of "recent_listings" d1 = set_of "recent_listings" (redis w)) as [Hs1 Hs2].
  { unfold Redis.set_at, set_of, d1. rewrite !lookup_insert_ne by done.
    split; [|done]. apply (well_typed_set _ "recent_listings" Hd eq_refl). }
  destruct (run_HSET (redis w) "archives" (listingPid (crawled_options p))
              (JSON_stringify (JObj (payload_fields p)))) as [n1 E1];
    [by apply well_typed_hash|].
  destruct (run_SADD d1 "recent_listings" (recent_of metadata date_now p) Hs1) as [n3 E3].
  unfold multi_exec. cbn [app Redis.exec].
  rewrite E1. fold d1. rewrite (run_SCARD _ _ Hs1), E3, Hs2. reflexivity.
Qed.

(** C3: [addSetItem] compares the queue [multi.SCARD] returned, not a
    size, with [maxSize]; the comparison fails, the number of members to
    remove is not a number, and no [SPOP] is queued. A ['crawled'] event
    on a ledger of ten members leaves eleven. *)
Theorem ledger_grows_past_capacity :
  ∃ e w',
    on_crawled save_example parse_example 1793648880000 payload_example full_ledger_example
    = (Ok e, w')
    ∧ Redis.SCARD "recent_listings" (redis full_ledger_example) = Ok 10
    ∧ Redis.SCARD "recent_listings" (redis w') = Ok 11.
Proof.
  do 2 eexists. split; [vm_compute; reflexivity|]. split; vm_compute; reflexivity.
Qed.

(** C4, as stated, fails: the record written under the [listingPid] is the
    payload as it came, not the payload with [gitUrl]. *)
Lemma archive_record_lacks_gitUrl :
  ∃ w',
    on_crawled save_example parse_example 1793648880000 payload_example fresh_example
    = (Ok (archived (JObj (payload_fields payload_example
                             ++ [("gitUrl", JStr "https://pages.example.org/ad/1")]))), w')
    ∧ hash_of "archives" (redis w') !! "7001"
      = Some (JSON_stringify (JObj (payload_fields payload_example)))
    ∧ hash_of "archives" (redis w') !! "7001"
      ≠ Some (JSON_stringify (JObj (payload_fields payload_example
                                      ++ [("gitUrl", JStr "https://pages.example.org/ad/1")]))).
Proof.
  eexists. split; [vm_compute; reflexivity|].
  split; [vm_compute; reflexivity|]. vm_compute. discriminate.
Qed.

(** C4, amended. For a ['crawled'] event whose page the collaborators save
    and parse, the listener writes one field of [archives], the
    [listingPid] of the event, with the payload as it came (without
    [gitUrl]); adds one member to [recent_listings] and removes none;
    touches no other key; and then emits ['archived'] with the payload
    extended with [gitUrl]. *)
Theorem crawled_is_archived save parse date_now p w gitUrl metadata :
  well_typed (redis w) →
  save (listingURL (crawled_options p)) (html p) (imageUrls p) = Ok gitUrl →
  parse (html p) = Ok metadata →
  ∃ w',
    on_crawled save parse date_now p w
    = (Ok (archived (JObj (payload_fields p ++ [("gitUrl", JStr gitUrl)]))), w')
    ∧ hash_of "archives" (redis w')
      = <[listingPid (crawled_options p) := JSON_stringify (JObj (payload_fields p))]>
          (hash_of "archives" (redis w))
    ∧ set_of "recent_listings" (redis w')
      = {[ recent_of metadata date_now p ]} ∪ set_of "recent_listings" (redis w)
    ∧ (size (set_of "recent_listings" (redis w'))
       ≤ S (size (set_of "recent_listings" (redis w))))%nat
    ∧ (∀ k, k ≠ "archives" → k ≠ "recent_listings" → redis w' !! k = redis w !! k)
    ∧ crawlers w' = crawlers w ∧ heap w' = heap w.
Proof.
  intros Hd Hsave Hparse. eexists. split; [by apply on_crawled_eq|].
  simpl. split_and!; [| | |by intros; rewrite !lookup_insert_ne|done..].
  - unfold hash_of at 1. by rewrite lookup_insert_ne, lookup_insert_eq.
  - unfold set_of at 1. by rewrite lookup_insert_eq.
  - unfold set_of at 1. rewrite lookup_insert_eq.
    etrans; [apply (subseteq_size _ _ (reflexivity _))|].
    destruct (decide (recent_of metadata date_now p ∈ set_of "recent_listings" (redis w))).
    + rewrite (subseteq_union_1_L {[_]}); [lia|]. by apply singleton_subseteq_l.
    + rewrite size_union, size_singleton; [lia|]. by apply disjoint_singleton_l.
Qed.

Lemma crawled_is_archived_witness :
  ∃ w',
    on_crawled save_example parse_example 1793648880000 payload_example fresh_example
    = (Ok (archived (JObj (payload_fields payload_example
                             ++ [("gitUrl", JStr "https://pages.example.org/ad/1")]))), w')
    ∧ hash_of "archives" (redis w') !! "7001"
      = Some (JSON_stringify (JObj (payload_fields payload_example))).
Proof.
  destruct (crawled_is_archived save_example parse_example 1793648880000 payload_example
              fresh_example "https://pages.example.org/ad/1" (JObj [("title", JStr "ad")])
              well_typed_empty eq_refl eq_refl) as (w' & E & Hh & _).
  exists w'. split; [done|]. rewrite Hh. apply lookup_insert_eq.
Defined.

(** ** What a call of [archive] changes *)

Lemma count_of_same d d' t :
  d' !! "crawlers" = d !! "crawlers" → count_of t d' = count_of t d.
Proof. intros E. unfold count_of, zset_of. by rewrite E. Qed.

Lemma limit_of_same JSON_parse d d' t :
  d' !! "userConfig" = d !! "userConfig" →
  limit_of JSON_parse t d' = limit_of JSON_parse t d.
Proof. intros E. unfold limit_of, config_of, hash_of. by rewrite E. Qed.

(** A call creates at most one crawler, for its own tenant and only when
    [launches] says so; it records it by one increment; it leaves the
    configurations alone. *)
Lemma archive_effect (JSON_parse : string → option UserConfig) now o w :
  well_typed (redis w) →
  ∃ launched : bool,
    (launched = true → launches JSON_parse (clientId o) w = true)
    ∧ (∀ t, count_of t (redis (archive JSON_parse now o w).2) =
            if launched && bool_decide (t = clientId o)
            then count_of t (redis w) + 1 else count_of t (redis w))
    ∧ crawlers (archive JSON_parse now o w).2 =
        (if launched then <[clientId o := length (heap w)]> (crawlers w) else crawlers w)
    ∧ length (heap (archive JSON_parse now o w).2) =
        (if launched then S (length (heap w)) else length (heap w))
    ∧ well_typed (redis (archive JSON_parse now o w).2)
    ∧ redis (archive JSON_parse now o w).2 !! "userConfig" = redis w !! "userConfig".
Proof.
  intros Hd.
  destruct (truthy_string (lock_of (listingUUID o) (redis w))) eqn:Hlock.
  - exists false. rewrite archive_locked by done. simpl.
    split_and!; [done| |done|done| |by rewrite lookup_insert_ne].
    + intros t. apply count_of_same. by rewrite lookup_insert_ne.
    + apply well_typed_insert; [by apply kind_ok_expected|done].
  - destruct (config_of JSON_parse (clientId o) (redis w)) as [cfg|] eqn:Hcfg.
    + rewrite (archive_unlocked JSON_parse now o w cfg) by done. cbv zeta.
      destruct (admitted_world_spec JSON_parse now o w Hd)
        as (_ & _ & Hk & Hcount & Hc & Hh & Hd3).
      set (w3 := admitted_world JSON_parse now o w) in *.
      set (crawler := crawlers w3 !! clientId o).
      pose proof (run_crawlers crawler (batch_of o w) o w3) as Hrc.
      pose proof (run_heap_length crawler (batch_of o w) o w3) as Hrh.
      pose proof (run_well_typed crawler (batch_of o w) o w3 Hd3) as Hrt.
      pose proof (λ k Hk, run_lookup crawler (batch_of o w) o w3 k Hk) as Hrl.
      destruct (run crawler (batch_of o w) o w3) as [[s|e] w4]; simpl in *.
      all: exists (launches JSON_parse (clientId o) w).
      all: split_and!; [done| | | |done|].
      all: try (intros t; rewrite <- Hcount; apply count_of_same; by apply Hrl).
      all: try (by rewrite Hrc, Hc).
      all: try (rewrite Hrh, Hh; destruct (launches _ _ _); [rewrite length_app; simpl; lia|done]).
      all: rewrite Hrl by done; apply Hk; [|done..]; intros E; symmetry in E; revert E;
        by apply lock_key_ne.
    + exists false. rewrite archive_parse_fails by done. simpl. by split_and!.
Qed.

(** ** What the other steps change *)

Lemma run_resume_frame c uuids r w :
  (well_typed (redis w) → well_typed (redis (run_resume c uuids r w).2))
  ∧ (∀ k, starts_with "running-" k = false →
          redis (run_resume c uuids r w).2 !! k = redis w !! k)
  ∧ crawlers (run_resume c uuids r w).2 = crawlers w
  ∧ length (heap (run_resume c uuids r w).2) = length (heap w).
Proof.
  rewrite run_resume_eq. cbn [snd]. split_and!.
  - intros Hd. by apply release_well_typed.
  - intros k Hk. by rewrite release_other.
  - done.
  - rewrite release_eq. simpl. by rewrite length_alter.
Qed.

Lemma on_crawled_frame save parse date_now p w :
  well_typed (redis w) →
  well_typed (redis (on_crawled save parse date_now p w).2)
  ∧ (∀ k, k ≠ "archives" → k ≠ "recent_listings" →
          redis (on_crawled save parse date_now p w).2 !! k = redis w !! k)
  ∧ crawlers (on_crawled save parse date_now p w).2 = crawlers w
  ∧ heap (on_crawled save parse date_now p w).2 = heap w.
Proof.
  intros Hd.
  destruct (save (listingURL (crawled_options p)) (html p) (imageUrls p))
    as [gitUrl|e] eqn:Hsave.
  - destruct (parse (html p)) as [metadata|e] eqn:Hparse.
    + rewrite (on_crawled_eq _ _ _ _ _ _ _ Hd Hsave Hparse). simpl.
      split_and!; [|by intros; rewrite !lookup_insert_ne|done..].
      apply well_typed_insert; [by apply kind_ok_expected|].
      apply well_typed_insert; [by apply kind_ok_expected|done].
    + unfold on_crawled. cbv zeta. rewrite bind_unfold. unfold lift at 1.
      rewrite Hsave. cbv beta iota. rewrite bind_unfold. unfold toRecentListing.
      rewrite bind_unfold. unfold lift at 1. rewrite Hparse. by split_and!.
  - unfold on_crawled. cbv zeta. rewrite bind_unfold. unfold lift at 1.
    rewrite Hsave. by split_and!.
Qed.

Lemma on_SIGUSR2_frame w :
  well_typed (redis w) →
  well_typed (redis (on_SIGUSR2 w).2)
  ∧ redis (on_SIGUSR2 w).2 !! "crawlers" = None
  ∧ redis (on_SIGUSR2 w).2 !! "userConfig" = redis w !! "userConfig"
  ∧ redis (on_SIGUSR2 w).2 !! "queued" = redis w !! "queued"
  ∧ (∀ u, redis (on_SIGUSR2 w).2 !! lock_key u = None)
  ∧ crawlers (on_SIGUSR2 w).2 = crawlers w
  ∧ heap (on_SIGUSR2 w).2 = heap w.
Proof.
  intros Hd. destruct (on_SIGUSR2_spec w Hd) as (_ & Hk & Hc & Hh).
  split_and!; [| | | | |done..].
  - intros k v. rewrite Hk. case_decide; [done|]. apply Hd.
  - rewrite Hk. by rewrite decide_True by by left.
  - rewrite Hk. rewrite decide_False; [done|]. by intros [?|[?|?]].
  - rewrite Hk. rewrite decide_False; [done|]. by intros [?|[?|?]].
  - intros u. rewrite Hk. rewrite decide_True; [done|].
    right. right. apply matches_lock_key.
Qed.

Lemma expired_frame d k v ex :
  well_typed d → d !! k = Some (Redis.VString v ex) →
  well_typed (delete k d)
  ∧ delete k d !! "crawlers" = d !! "crawlers"
  ∧ delete k d !! "userConfig" = d !! "userConfig".
Proof.
  intros Hd Hk. split_and!; [by apply well_typed_delete|..].
  all: apply lookup_delete_ne; intros ->; by specialize (Hd _ _ Hk _ eq_refl).
Qed.

(** ** The recorded number of crawlers *)

Lemma count_of_absent t d : d !! "crawlers" = None → count_of t d = 0.
Proof. intros E. unfold count_of, zset_of. by rewrite E. Qed.

Lemma launches_iff JSON_parse t w :
  launches JSON_parse t w = true
  ↔ crawlers w !! t = None
    ∨ count_of t (redis w) = 0
    ∨ count_of t (redis w) < limit_of JSON_parse t (redis w).
Proof.
  unfold launches.
  destruct (crawlers w !! t) as [c|]; [|by split; [left|]].
  rewrite orb_true_iff, negb_true_iff, Z.ltb_lt. unfold count_of.
  split.
  - intros [Hn|Hlt]; right; [left|by right].
    destruct (zset_of "crawlers" (redis w) !! t) as [n|]; simpl in *; [|done].
    by apply negb_false_iff, Z.eqb_eq in Hn.
  - intros [[=]|[Hz|Hlt]]; [left|by right].
    destruct (zset_of "crawlers" (redis w) !! t) as [n|]; simpl in *; [|done].
    subst n. done.
Qed.

(** The invariant of the worker. *)
Lemma step_invariant JSON_parse save parse w w' :
  step JSON_parse save parse w w' →
  well_typed (redis w)
  ∧ (∀ t, count_of t (redis w) ≤ Z.max 1 (limit_of JSON_parse t (redis w)))
  ∧ (∀ t, crawlers w !! t = None → count_of t (redis w) = 0) →
  well_typed (redis w')
  ∧ (∀ t, count_of t (redis w') ≤ Z.max 1 (limit_of JSON_parse t (redis w')))
  ∧ (∀ t, crawlers w' !! t = None → count_of t (redis w') = 0).
Proof.
  intros Hstep (Hd & Hle & Hzero).
  destruct Hstep as [now o w|c uuids r w|date_now p w|w|k v ex w Hk].
  - destruct (archive_effect JSON_parse now o w Hd)
      as (launched & Hl & Hcount & Hc & _ & Hd' & Hcfg).
    assert (∀ t, limit_of JSON_parse t (redis (archive JSON_parse now o w).2)
                 = limit_of JSON_parse t (redis w)) as Hlim
      by (intros t; by apply limit_of_same).
    split_and!; [done| |].
    + intros t. rewrite Hlim, Hcount.
      destruct launched; [|apply Hle]. cbn [andb].
      case_bool_decide as Ht; [subst t|apply Hle].
      specialize (Hl eq_refl). apply launches_iff in Hl as [Hnone|[Hz|Hlt]]; [|lia..].
      rewrite (Hzero _ Hnone). lia.
    + intros t. rewrite Hc, Hcount. destruct launched; [|apply Hzero]. cbn [andb].
      case_bool_decide as Ht; [subst t; by rewrite lookup_insert_eq|].
      rewrite lookup_insert_ne by done. apply Hzero.
  - destruct (run_resume_frame c uuids r w) as (Hd' & Hk & Hc & _).
    split_and!; [by apply Hd'| |].
    + intros t. rewrite (limit_of_same _ (redis w)), (count_of_same (redis w))
        by by apply Hk. apply Hle.
    + intros t. rewrite Hc, (count_of_same (redis w)) by by apply Hk. apply Hzero.
  - destruct (on_crawled_frame save parse date_now p w Hd) as (Hd' & Hk & Hc & _).
    split_and!; [done| |].
    + intros t. rewrite (limit_of_same _ (redis w)), (count_of_same (redis w))
        by by apply Hk. apply Hle.
    + intros t. rewrite Hc, (count_of_same (redis w)) by by apply Hk. apply Hzero.
  - destruct (on_SIGUSR2_frame w Hd) as (Hd' & Hz & Hcfg & _ & _ & Hc & _).
    split_and!; [done| |].
    + intros t. rewrite count_of_absent by done. lia.
    + intros t _. by apply count_of_absent.
  - destruct (expired_frame _ _ _ _ Hd Hk) as (Hd' & Hz & Hcfg). simpl.
    split_and!; [done| |].
    + intros t. rewrite (limit_of_same _ (redis w)), (count_of_same (redis w)) by done.
      apply Hle.
    + intros t. rewrite (count_of_same (redis w)) by done. apply Hzero.
Qed.

Lemma step_registry_ok JSON_parse save parse w w' :
  step JSON_parse save parse w w' →
  well_typed (redis w) → registry_ok w → registry_ok w'.
Proof.
  intros Hstep Hd Hreg.
  destruct Hstep as [now o w|c uuids r w|date_now p w|w|k v ex w Hk]; [| | | |done].
  - destruct (archive_effect JSON_parse now o w Hd)
      as (launched & _ & _ & Hc & Hh & _).
    intros t c. rewrite Hc, Hh. destruct launched; [|apply Hreg].
    destruct (decide (t = clientId o)) as [->|Hne].
    + rewrite lookup_insert_eq. intros [= <-]. lia.
    + rewrite lookup_insert_ne by done. intros Hc'%Hreg. lia.
  - destruct (run_resume_frame c uuids r w) as (_ & _ & Hc & Hh).
    intros t c'. rewrite Hc, Hh. apply Hreg.
  - destruct (on_crawled_frame save parse date_now p w Hd) as (_ & _ & Hc & Hh).
    intros t c'. rewrite Hc, Hh. apply Hreg.
  - destruct (on_SIGUSR2_frame w Hd) as (_ & _ & _ & _ & _ & Hc & Hh).
    intros t c'. rewrite Hc, Hh. apply Hreg.
Qed.

Lemma reachable_invariant JSON_parse save parse w0 w :
  fresh_start w0 →
  rtc (step JSON_parse save parse) w0 w →
  well_formed w
  ∧ (∀ t, count_of t (redis w) ≤ Z.max 1 (limit_of JSON_parse t (redis w)))
  ∧ (∀ t, crawlers w !! t = None → count_of t (redis w) = 0).
Proof.
  intros (Hd & Hz & Hc & Hh). revert w. apply rtc_ind_r.
  - split_and!; [split; [done|]| |].
    + intros t c. by rewrite Hc, lookup_empty.
    + intros t. rewrite count_of_absent by done. lia.
    + intros t _. by apply count_of_absent.
  - intros w1 w Hsteps Hstep ([Hd1 Hreg1] & Hinv).
    destruct (step_invariant _ _ _ _ _ Hstep (conj Hd1 Hinv)) as (Hd2 & Hinv2).
    split; [split; [done|]|done]. by eapply step_registry_ok.
Qed.

(** ** The limit of crawlers of a tenant *)

(** C2, as stated, fails in two ways. A tenant configured with a
    [crawlerLimit] of zero gets a crawler, and a recorded number of 1, by
    its first call: [crawlerLimit || 1] reads zero as missing. And a
    worker that starts on a store where a crawler of the tenant is already
    recorded has no crawler of its own for the tenant, creates one without
    looking at the number, and records 2 against a limit of 1. *)
Lemma limit_exceeded :
  (config_of parse_limit_example "t1" (redis zero_limit_example)
   = Some (ConfigObject (Some 0))
   ∧ count_of "t1"
       (redis (archive parse_limit_example "11/2/2026, 7:49:00 PM" request_example
                 zero_limit_example).2) = 1)
  ∧ (limit_of parse_limit_example "t1" (redis stale_count_example) = 1
     ∧ count_of "t1"
         (redis (archive parse_limit_example "11/2/2026, 7:49:00 PM" request_example
                   stale_count_example).2) = 2).
Proof. split; split; vm_compute; reflexivity. Qed.

(** C2, amended. Take a worker that is alone on its store and started
    when the store recorded no crawlers, tenants whose [crawlerLimit] is
    missing or an integer, and calls of [archive] that do not overlap
    (each returns before the next starts). Then the recorded number of
    crawlers of every tenant stays at or below the larger of 1 and the
    tenant's limit as [archive] reads it ([crawlerLimit], and 1 when that
    is missing or zero), through every sequence of calls of [archive],
    settled runs, handled events, resets and expiries. And in every state
    so reached, a call that finds the lock absent and a configuration that
    parses creates a crawler exactly when the tenant has none in
    [crawlers], or the recorded number is zero, or it is below the limit;
    otherwise it hands the batch to the crawler the tenant has and creates
    none. *)
Theorem crawler_limit_respected (JSON_parse : string → option UserConfig) save parse w0 w :
  fresh_start w0 →
  rtc (step JSON_parse save parse) w0 w →
  (∀ t, count_of t (redis w) ≤ Z.max 1 (limit_of JSON_parse t (redis w)))
  ∧ (∀ now o cfg,
       redis w !! lock_key (listingUUID o) = None →
       config_of JSON_parse (clientId o) (redis w) = Some cfg →
       ∃ c status w',
         archive JSON_parse now o w = (Ok (Dispatched (Some c) (batch_of o w) status), w')
         ∧ if decide (crawlers w !! clientId o = None
                      ∨ count_of (clientId o) (redis w) = 0
                      ∨ count_of (clientId o) (redis w)
                        < limit_of JSON_parse (clientId o) (redis w))
           then c = length (heap w) ∧ length (heap w') = S (length (heap w))
           else crawlers w !! clientId o = Some c ∧ length (heap w') = length (heap w)).
Proof.
  intros Hfresh Hrtc.
  destruct (reachable_invariant _ _ _ _ _ Hfresh Hrtc) as (Hwf & Hle & _).
  split; [done|]. intros now o cfg Hfree Hcfg.
  assert (truthy_string (lock_of (listingUUID o) (redis w)) = false) as Hlock.
  { unfold lock_of. by rewrite Hfree. }
  destruct (archive_dispatches JSON_parse now o w cfg Hwf Hlock Hcfg)
    as (c & cr & status & w' & Ec & _ & Hrun & Harchive & _).
  destruct (admitted_world_spec JSON_parse now o w (proj1 Hwf))
    as (_ & _ & _ & _ & Hc & Hh & _).
  pose proof (run_heap_length (Some c) (batch_of o w) o (admitted_world JSON_parse now o w))
    as Hlen. rewrite Hrun in Hlen. simpl in Hlen.
  exists c, status, w'. split; [done|].
  pose proof (launches_iff JSON_parse (clientId o) w) as Hiff.
  rewrite Hc in Ec. rewrite Hh in Hlen.
  case_decide as Hcase.
  - apply Hiff in Hcase. rewrite Hcase in *. rewrite lookup_insert_eq in Ec.
    injection Ec as <-. split; [done|]. rewrite Hlen, length_app. simpl. lia.
  - destruct (launches JSON_parse (clientId o) w); [|done].
    exfalso. apply Hcase. by apply Hiff.
Qed.

Lemma crawler_limit_respected_witness :
  count_of "t1" (redis three_calls_example)
  ≤ Z.max 1 (limit_of parse_limit_example "t1" (redis three_calls_example))
  ∧ count_of "t1" (redis three_calls_example) = 2
  ∧ limit_of parse_limit_example "t1" (redis three_calls_example) = 2.
Proof.
  split; [|split; vm_compute; reflexivity].
  refine (proj1 (crawler_limit_respected parse_limit_example save_example parse_example
                   configured_example three_calls_example _ _) "t1").
  - split_and!; [|done..]. apply map_Forall_singleton. by intros kd [= <-].
  - unfold three_calls_example.
    eapply rtc_l; [apply step_archive|]. eapply rtc_l; [apply step_archive|].
    eapply rtc_l; [apply step_archive|]. apply rtc_refl.
Defined.

(** ** The recorded number of crawlers never goes down *)

(** C10. [launchCrawler] adds one to the score of its tenant in
    [crawlers] and to no other; [run], whether it settles at once or
    waits, a run that settles, completed or failed, and a handled
    ['crawled'] event leave every score as it is; a call of [archive]
    never lowers a score; the reset removes the whole sorted set. *)
Theorem recorded_crawlers_only_grow (JSON_parse : string → option UserConfig) save parse :
  (∀ t t' w, well_typed (redis w) →
     count_of t' (redis (launchCrawler t w).2)
     = if decide (t' = t) then count_of t' (redis w) + 1 else count_of t' (redis w))
  ∧ (∀ crawler urlMap options w t,
       count_of t (redis (run crawler urlMap options w).2) = count_of t (redis w))
  ∧ (∀ c uuids r w t,
       count_of t (redis (run_resume c uuids r w).2) = count_of t (redis w))
  ∧ (∀ date_now p w t, well_typed (redis w) →
       count_of t (redis (on_crawled save parse date_now p w).2) = count_of t (redis w))
  ∧ (∀ now o w t, well_typed (redis w) →
       count_of t (redis w) ≤ count_of t (redis (archive JSON_parse now o w).2))
  ∧ (∀ w t, well_typed (redis w) →
       redis (on_SIGUSR2 w).2 !! "crawlers" = None
       ∧ count_of t (redis (on_SIGUSR2 w).2) = 0).
Proof.
  split_and!.
  - intros t t' w Hd. rewrite launchCrawler_eq. simpl. rewrite ZINCRBY_spec by done.
    unfold count_of at 1. unfold zset_of at 1. rewrite lookup_insert_eq.
    case_decide as E; [subst; by rewrite lookup_insert_eq|].
    by rewrite lookup_insert_ne.
  - intros crawler urlMap options w t. apply count_of_same. by apply run_lookup.
  - intros c uuids r w t. apply count_of_same.
    by apply (run_resume_frame c uuids r w).
  - intros date_now p w t Hd. apply count_of_same.
    by apply (on_crawled_frame save parse date_now p w Hd).
  - intros now o w t Hd.
    destruct (archive_effect JSON_parse now o w Hd) as (launched & _ & Hcount & _).
    rewrite Hcount. destruct (_ && _); lia.
  - intros w t Hd. destruct (on_SIGUSR2_frame w Hd) as (_ & Hz & _).
    split; [done|]. by apply count_of_absent.
Qed.

Lemma recorded_crawlers_only_grow_witness :
  count_of "t1" (redis (launchCrawler "t1" fresh_example).2)
  = count_of "t1" (redis fresh_example) + 1.
Proof.
  exact (proj1 (recorded_crawlers_only_grow (λ _, None) save_example parse_example)
           "t1" "t1" fresh_example well_typed_empty).
Defined.

(** * Further properties of the worker *)

(** ** When [archive] throws *)

(** X1. On a store of the worker, a call of [archive] throws in one case
    only: the lock is not held and the configuration of the tenant is not
    JSON. It then throws the [SyntaxError] of [JSON.parse] before it has
    written anything: no lock is set, nothing is queued, no crawler is
    created. *)
Theorem archive_throws_on_bad_config (JSON_parse : string → option UserConfig) now o w :
  well_typed (redis w) →
  (truthy_string (lock_of (listingUUID o) (redis w)) = false
   ∧ config_of JSON_parse (clientId o) (redis w) = None
   → archive JSON_parse now o w = (Throw SyntaxError, w))
  ∧ (∀ e, (archive JSON_parse now o w).1 = Throw e →
          truthy_string (lock_of (listingUUID o) (redis w)) = false
          ∧ config_of JSON_parse (clientId o) (redis w) = None
          ∧ e = SyntaxError).
Proof.
  intros Hd. split.
  - intros [Hlock Hcfg]. by apply archive_parse_fails.
  - intros e He.
    destruct (truthy_string (lock_of (listingUUID o) (redis w))) eqn:Hlock.
    { by rewrite archive_locked in He. }
    destruct (config_of JSON_parse (clientId o) (redis w)) as [cfg|] eqn:Hcfg.
    + rewrite (archive_unlocked JSON_parse now o w cfg Hd Hlock Hcfg) in He.
      cbv zeta in He.
      destruct (run_total (crawlers (admitted_world JSON_parse now o w) !! clientId o)
                  (batch_of o w) o (admitted_world JSON_parse now o w)) as (s & w' & Hrun).
      by rewrite Hrun in He.
    + rewrite archive_parse_fails in He by done. by injection He as <-.
Qed.

Lemma archive_throws_on_bad_config_witness :
  archive (λ _, None) "11/2/2026, 7:49:00 PM" request_example bad_config_example
  = (Throw SyntaxError, bad_config_example).
Proof.
  apply (archive_throws_on_bad_config (λ _, None) _ request_example bad_config_example).
  - apply map_Forall_singleton. by intros kd [= <-].
  - split; reflexivity.
Defined.

(** ** The queue of a tenant *)

(** X2. The queue of a tenant has one slot. A locked call followed by
    another locked call of the same tenant leaves the world exactly as the
    second call alone leaves it: the entry of the first is overwritten and
    is never dispatched. *)
Theorem queue_keeps_last_entry (JSON_parse : string → option UserConfig) now1 now2 o1 o2 w :
  well_typed (redis w) →
  clientId o1 = clientId o2 →
  truthy_string (lock_of (listingUUID o1) (redis w)) = true →
  truthy_string (lock_of (listingUUID o2) (redis w)) = true →
  archive JSON_parse now2 o2 (archive JSON_parse now1 o1 w).2 = archive JSON_parse now2 o2 w
  ∧ hash_of "queued" (redis (archive JSON_parse now2 o2 w).2)
    = <[clientId o2 := entry_of o2]> (hash_of "queued" (redis w)).
Proof.
  intros Hd Ht H1 H2.
  rewrite (archive_locked JSON_parse now1 o1 w Hd H1). cbn [snd].
  set (w1 := with_redis _ w).
  assert (well_typed (redis w1)) as Hd1.
  { apply well_typed_insert; [by apply kind_ok_expected|done]. }
  assert (lock_of (listingUUID o2) (redis w1) = lock_of (listingUUID o2) (redis w)) as Hl.
  { unfold lock_of, w1. simpl. rewrite lookup_insert_ne; [done|].
    intros E. symmetry in E. revert E. by apply lock_key_ne. }
  rewrite (archive_locked JSON_parse now2 o2 w1 Hd1) by by rewrite Hl.
  rewrite (archive_locked JSON_parse now2 o2 w Hd H2).
  split.
  - f_equal. unfold w1, with_redis. simpl. f_equal.
    unfold hash_of at 1. rewrite lookup_insert_eq, insert_insert_eq, Ht.
    by rewrite insert_insert_eq.
  - simpl. unfold hash_of at 1. by rewrite lookup_insert_eq.
Qed.

Lemma queue_keeps_last_entry_witness :
  archive (λ _, None) "11/2/2026, 7:50:00 PM" request2_example
    (archive (λ _, None) "11/2/2026, 7:49:00 PM" request_example both_locked_example).2
  = archive (λ _, None) "11/2/2026, 7:50:00 PM" request2_example both_locked_example.
Proof.
  refine (proj1 (queue_keeps_last_entry (λ _, None) _ _ request_example request2_example
                   both_locked_example _ eq_refl eq_refl eq_refl)).
  apply map_Forall_insert_2; [by intros kd [= <-]|].
  apply map_Forall_singleton. by intros kd [= <-].
Defined.



(** ** The lock when [archive] returns *)

(** X4. When the tenant's crawler is running and the call creates no new
    one, [run] adds the batch to the crawler and goes through its
    [finally] at once: the call returns with the lock of every entry of
    the batch deleted, its own lock (for a uuid without a space) and the
    locks of the entries it drained, while the crawler has only just been
    given the urls. *)
Theorem running_crawler_releases_at_once (JSON_parse : string → option UserConfig)
    now o w cfg c cr :
  well_formed w →
  redis w !! lock_key (listingUUID o) = None →
  config_of JSON_parse (clientId o) (redis w) = Some cfg →
  crawlers w !! clientId o = Some c →
  heap w !! c = Some cr →
  running cr = true →
  launches JSON_parse (clientId o) w = false →
  ∃ w',
    archive JSON_parse now o w = (Ok (Dispatched (Some c) (batch_of o w) Settled), w')
    ∧ heap w' !! c =
        Some {| running := true;
                requestQueue := requestQueue cr ++ requests_of (batch_of o w) o |}
    ∧ (∀ m, m ∈ batch_of o w →
            redis w' !! ("running-" +:+ interpolate (split " " m !! 0%nat)) = None)
    ∧ (no_space (listingUUID o) = true → redis w' !! lock_key (listingUUID o) = None).
Proof.
  intros [Hd Hreg] Hfree Hcfg Hc Hcr Hrun Hl.
  assert (truthy_string (lock_of (listingUUID o) (redis w)) = false) as Hlock.
  { unfold lock_of. by rewrite Hfree. }
  rewrite (archive_unlocked JSON_parse now o w cfg Hd Hlock Hcfg). cbv zeta.
  destruct (admitted_world_spec JSON_parse now o w Hd) as (_ & _ & _ & _ & Ec & Eh & _).
  rewrite Hl in Ec, Eh. rewrite Ec, Hc.
  assert (heap (admitted_world JSON_parse now o w) !! c = Some cr) as Hcr' by by rewrite Eh.
  pose proof (run_eq c cr (batch_of o w) o _ Hcr') as E. cbv zeta in E.
  rewrite E, Hrun. eexists. split; [done|].
  assert (∀ m, m ∈ batch_of o w →
            redis (release (uuids_of (batch_of o w))
                     (with_heap (<[c := {| running := true;
                                           requestQueue := requestQueue cr
                                                           ++ requests_of (batch_of o w) o |}]>
                                   (heap (admitted_world JSON_parse now o w)))
                                (admitted_world JSON_parse now o w))).2
              !! ("running-" +:+ interpolate (split " " m !! 0%nat)) = None) as Hrel.
  { intros m Hm. apply release_releases. unfold uuids_of.
    apply list_elem_of_fmap. by exists m. }
  split_and!; [|done|].
  - rewrite release_eq. simpl. apply list_lookup_insert_eq.
    rewrite Eh. by eapply lookup_lt_Some.
  - intros Hs. specialize (Hrel (entry_of o) (entry_in_batch o w)).
    unfold entry_of in Hrel at 1. by rewrite split_entry in Hrel.
Qed.

Lemma running_crawler_releases_at_once_witness :
  ∃ w',
    archive (λ _, None) "11/2/2026, 7:49:00 PM" request_example busy_example
    = (Ok (Dispatched (Some 0%nat) (batch_of request_example busy_example) Settled), w')
    ∧ redis w' !! lock_key "u1" = None.
Proof.
  destruct (running_crawler_releases_at_once (λ _, None) "11/2/2026, 7:49:00 PM"
              request_example busy_example ConfigNull 0%nat
              {| running := true; requestQueue := [] |})
    as (w' & E & _ & _ & Hl).
  - split.
    + apply map_Forall_singleton. by intros kd [= <-].
    + intros t c H. simpl in H. apply lookup_singleton_Some in H as [_ <-]. simpl. lia.
  - reflexivity.
  - reflexivity.
  - reflexivity.
  - reflexivity.
  - reflexivity.
  - reflexivity.
  - exists w'. split; [done|]. by apply Hl.
Defined.

(** X5. When the crawler the call dispatches to is not running, because
    the call has just created it or because it is idle, the call returns
    with its lock held, with the value and the expiry it set, and with
    [run] waiting for [crawler.run] with the uuids of the whole batch. *)
Theorem idle_crawler_keeps_lock (JSON_parse : string → option UserConfig) now o w cfg :
  well_formed w →
  redis w !! lock_key (listingUUID o) = None →
  config_of JSON_parse (clientId o) (redis w) = Some cfg →
  launches JSON_parse (clientId o) w = true
  ∨ (∃ c cr, crawlers w !! clientId o = Some c ∧ heap w !! c = Some cr ∧ running cr = false) →
  ∃ c w',
    archive JSON_parse now o w
    = (Ok (Dispatched (Some c) (batch_of o w) (Awaiting c (uuids_of (batch_of o w)))), w')
    ∧ redis w' !! lock_key (listingUUID o) = Some (Redis.VString now (Some 30))
    ∧ ∃ cr', heap w' !! c = Some cr' ∧ running cr' = true.
Proof.
  intros [Hd Hreg] Hfree Hcfg Hcase.
  assert (truthy_string (lock_of (listingUUID o) (redis w)) = false) as Hlock.
  { unfold lock_of. by rewrite Hfree. }
  rewrite (archive_unlocked JSON_parse now o w cfg Hd Hlock Hcfg). cbv zeta.
  destruct (admitted_world_spec JSON_parse now o w Hd) as (Hset & _ & _ & _ & Ec & Eh & _).
  set (w3 := admitted_world JSON_parse now o w) in *.
  assert (∃ c cr, crawlers w3 !! clientId o = Some c ∧ heap w3 !! c = Some cr
                  ∧ running cr = false) as (c & cr & Hc & Hcr & Hrun).
  { destruct (launches JSON_parse (clientId o) w) eqn:Hl.
    - exists (length (heap w)), {| running := false; requestQueue := [] |}.
      rewrite Ec, Eh, lookup_insert_eq. split_and!; [done| |done].
      by apply list_lookup_middle.
    - destruct Hcase as [?|(c & cr & ? & ? & ?)]; [congruence|].
      exists c, cr. by rewrite Ec, Eh. }
  rewrite Hc. pose proof (run_eq c cr (batch_of o w) o w3 Hcr) as E. cbv zeta in E.
  rewrite E, Hrun. exists c. eexists. split_and!; [done|done|].
  eexists. split; [simpl; apply list_lookup_insert_eq; by eapply lookup_lt_Some|done].
Qed.

Lemma idle_crawler_keeps_lock_witness :
  ∃ c w',
    archive (λ _, None) "11/2/2026, 7:49:00 PM" request_example idle_example
    = (Ok (Dispatched (Some c) (batch_of request_example idle_example)
             (Awaiting c (uuids_of (batch_of request_example idle_example)))), w')
    ∧ redis w' !! lock_key "u1"
      = Some (Redis.VString "11/2/2026, 7:49:00 PM" (Some 30)).
Proof.
  destruct (idle_crawler_keeps_lock (λ _, None) "11/2/2026, 7:49:00 PM"
              request_example idle_example ConfigNull) as (c & w' & E & Hl & _).
  - split.
    + apply map_Forall_singleton. by intros kd [= <-].
    + intros t c H. simpl in H. apply lookup_singleton_Some in H as [_ <-]. simpl. lia.
  - reflexivity.
  - reflexivity.
  - right. exists 0%nat, {| running := false; requestQueue := [] |}. by split_and!.
  - by exists c, w'.
Defined.

(** ** Entries: what [archive] writes and [run] reads back *)

(** X6. An entry is read back by [run] as it was written by [archive]
    when neither the uuid nor the url has a space: the request carries
    the [listingURL] and the key released is the lock of the
    [listingUUID]. A url with a space is cut at the space. *)
Theorem entry_round_trip o :
  no_space (listingUUID o) = true →
  split " " (entry_of o) !! 0%nat = Some (listingUUID o)
  ∧ split " " (entry_of o) !! 1%nat = Some (first_word (listingURL o))
  ∧ (no_space (listingURL o) = true →
     requests_of [entry_of o] o = [ {| url := Some (listingURL o); userData := o |} ]
     ∧ released (uuids_of [entry_of o]) = [ lock_key (listingUUID o) ]).
Proof.
  intros Hu. unfold entry_of. rewrite (split_after _ _ Hu). cbn [lookup list_lookup].
  split_and!; [done|apply split_head|].
  intros Hl. unfold requests_of, uuids_of, released. cbn [fmap list_fmap].
  rewrite (split_after _ _ Hu). cbn [lookup list_lookup].
  by rewrite split_head, first_word_id.
Qed.

Lemma entry_round_trip_witness :
  split " " (entry_of spaced_url_example) !! 1%nat = Some "https://example.org/ad"
  ∧ requests_of [entry_of request_example] request_example
    = [ {| url := Some "https://example.org/ad/1"; userData := request_example |} ].
Proof.
  split.
  - exact (proj1 (proj2 (entry_round_trip spaced_url_example eq_refl))).
  - exact (proj1 (proj2 (proj2 (entry_round_trip request_example eq_refl)) eq_refl)).
Defined.

(** X7. The lock of a uuid with a space in it is never released by
    [run]: the key deleted is cut from the entry at the first space and
    is another key. The call returns with the lock held and a run that
    settles leaves it; only its expiry or the reset removes it. *)
Theorem spaced_uuid_lock_stays (JSON_parse : string → option UserConfig) now o w cfg :
  well_formed w →
  redis w !! lock_key (listingUUID o) = None →
  config_of JSON_parse (clientId o) (redis w) = Some cfg →
  no_space (listingUUID o) = false →
  ∃ c status w',
    archive JSON_parse now o w = (Ok (Dispatched (Some c) (batch_of o w) status), w')
    ∧ redis w' !! lock_key (listingUUID o) = Some (Redis.VString now (Some 30))
    ∧ ∀ c' r w2,
        redis (run_resume c' (uuids_of (batch_of o w)) r w2).2 !! lock_key (listingUUID o)
        = redis w2 !! lock_key (listingUUID o).
Proof.
  intros Hwf Hfree Hcfg Hs.
  assert (truthy_string (lock_of (listingUUID o) (redis w)) = false) as Hlock.
  { unfold lock_of. by rewrite Hfree. }
  assert (∀ urlMap, lock_key (listingUUID o) ∉ released (uuids_of urlMap)) as Hnot.
  { intros urlMap Hin. unfold released, uuids_of in Hin.
    rewrite <- list_fmap_compose in Hin.
    apply list_elem_of_fmap in Hin as (m & E & _). simpl in E.
    rewrite split_head in E. apply lock_key_inj in E. simpl in E.
    pose proof (no_space_first_word m) as H. rewrite <- E in H. congruence. }
  destruct (archive_dispatches JSON_parse now o w cfg Hwf Hlock Hcfg)
    as (c & cr & status & w' & _ & _ & Hrun & Harchive & _).
  destruct (admitted_world_spec JSON_parse now o w (proj1 Hwf)) as (Hset & _).
  exists c, status, w'. split_and!; [done| |].
  - rewrite <- Hset.
    destruct (run_redis (Some c) (batch_of o w) o (admitted_world JSON_parse now o w))
      as [E|E]; rewrite Hrun in E; cbn [snd] in E; rewrite E; [done|].
    rewrite release_lookup. by rewrite decide_False by apply Hnot.
  - intros c' r w2. rewrite run_resume_eq. cbn [snd].
    rewrite release_lookup. by rewrite decide_False by apply Hnot.
Qed.

Lemma spaced_uuid_lock_stays_witness :
  ∃ c status w',
    archive (λ _, None) "11/2/2026, 7:49:00 PM" spaced_uuid_example busy_example
    = (Ok (Dispatched (Some c) (batch_of spaced_uuid_example busy_example) status), w')
    ∧ redis w' !! lock_key "u 3"
      = Some (Redis.VString "11/2/2026, 7:49:00 PM" (Some 30)).
Proof.
  destruct (spaced_uuid_lock_stays (λ _, None) "11/2/2026, 7:49:00 PM"
              spaced_uuid_example busy_example ConfigNull)
    as (c & status & w' & E & Hl & _).
  - split.
    + apply map_Forall_singleton. by intros kd [= <-].
    + intros t c H. simpl in H. apply lookup_singleton_Some in H as [_ <-]. simpl. lia.
  - reflexivity.
  - reflexivity.
  - reflexivity.
  - by exists c, status, w'.
Defined.

(** ** The keys a call of [archive] touches *)

Lemma lock_key_starts u : starts_with "running-" (lock_key u) = true.
Proof. reflexivity. Qed.

Lemma archive_frame (JSON_parse : string → option UserConfig) now o w k :
  well_typed (redis w) →
  k ≠ "queued" → k ≠ "crawlers" → starts_with "running-" k = false →
  redis (archive JSON_parse now o w).2 !! k = redis w !! k.
Proof.
  intros Hd Hq Hc Hr.
  destruct (truthy_string (lock_of (listingUUID o) (redis w))) eqn:Hlock.
  - rewrite archive_locked by done. simpl. by rewrite lookup_insert_ne.
  - destruct (config_of JSON_parse (clientId o) (redis w)) as [cfg|] eqn:Hcfg.
    + rewrite (archive_unlocked JSON_parse now o w cfg) by done. cbv zeta.
      destruct (admitted_world_spec JSON_parse now o w Hd) as (_ & _ & Hk & _).
      set (w3 := admitted_world JSON_parse now o w) in *.
      pose proof (run_lookup (crawlers w3 !! clientId o) (batch_of o w) o w3 k Hr) as Hrl.
      destruct (run (crawlers w3 !! clientId o) (batch_of o w) o w3) as [[s|e] w4];
        cbn [snd] in *; rewrite Hrl; apply Hk; try done.
      all: intros E; rewrite E, lock_key_starts in Hr; done.
    + by rewrite archive_parse_fails.
Qed.

(** X8. A call of [archive] reads [userConfig] and writes [queued],
    [crawlers] and keys [running-...], and no other key of the store:
    the archive index, the ledger and the configurations are as they
    were, whatever the call does. *)
Theorem archive_touches_only_its_keys (JSON_parse : string → option UserConfig) now o w :
  well_typed (redis w) →
  (∀ k, k ≠ "queued" → k ≠ "crawlers" → starts_with "running-" k = false →
        redis (archive JSON_parse now o w).2 !! k = redis w !! k)
  ∧ hash_of "archives" (redis (archive JSON_parse now o w).2) = hash_of "archives" (redis w)
  ∧ set_of "recent_listings" (redis (archive JSON_parse now o w).2)
    = set_of "recent_listings" (redis w)
  ∧ hash_of "userConfig" (redis (archive JSON_parse now o w).2)
    = hash_of "userConfig" (redis w).
Proof.
  intros Hd. split_and!.
  - intros k. by apply archive_frame.
  - unfold hash_of. by rewrite archive_frame.
  - unfold set_of. by rewrite archive_frame.
  - unfold hash_of. by rewrite archive_frame.
Qed.

Lemma archive_touches_only_its_keys_witness :
  hash_of "archives"
    (redis (archive (λ _, None) "11/2/2026, 7:49:00 PM" request_example fresh_example).2)
  = hash_of "archives" (redis fresh_example).
Proof.
  exact (proj1 (proj2 (archive_touches_only_its_keys (λ _, None) "11/2/2026, 7:49:00 PM"
                         request_example fresh_example well_typed_empty))).
Defined.

(** ** The listener of ['crawled'], continued *)

Lemma crawled_rejected_core save parse date_now p w e :
  save (listingURL (crawled_options p)) (html p) (imageUrls p) = Throw e
  ∨ (∃ gitUrl, save (listingURL (crawled_options p)) (html p) (imageUrls p) = Ok gitUrl
               ∧ parse (html p) = Throw e) →
  on_crawled save parse date_now p w = (Throw e, w).
Proof.
  intros [Hsave|(gitUrl & Hsave & Hparse)].
  - unfold on_crawled. cbv zeta. rewrite bind_unfold. unfold lift at 1. by rewrite Hsave.
  - unfold on_crawled. cbv zeta. rewrite bind_unfold. unfold lift at 1.
    rewrite Hsave. cbv beta iota. rewrite bind_unfold. unfold toRecentListing.
    rewrite bind_unfold. unfold lift at 1. by rewrite Hparse.
Qed.

Lemma crawled_is_archived_core save parse date_now p w gitUrl metadata :
  well_typed (redis w) →
  save (listingURL (crawled_options p)) (html p) (imageUrls p) = Ok gitUrl →
  parse (html p) = Ok metadata →
  hash_of "archives" (redis (on_crawled save parse date_now p w).2)
  = <[listingPid (crawled_options p) := JSON_stringify (JObj (payload_fields p))]>
      (hash_of "archives" (redis w))
  ∧ set_of "recent_listings" (redis (on_crawled save parse date_now p w).2)
    = {[ recent_of metadata date_now p ]} ∪ set_of "recent_listings" (redis w).
Proof.
  intros Hd Hsave Hparse. rewrite (on_crawled_eq _ _ _ _ _ _ _ Hd Hsave Hparse). simpl.
  split.
  - unfold hash_of at 1. by rewrite lookup_insert_ne, lookup_insert_eq.
  - unfold set_of at 1. by rewrite lookup_insert_eq.
Qed.

(** X9. When the page store rejects, or stores the page and the metadata
    parser then rejects, the listener throws what they threw and the
    worker's state is as before: no archive record, no ledger member, no
    ['archived'] event. *)
Theorem crawled_rejected_changes_nothing save parse date_now p w e :
  save (listingURL (crawled_options p)) (html p) (imageUrls p) = Throw e
  ∨ (∃ gitUrl, save (listingURL (crawled_options p)) (html p) (imageUrls p) = Ok gitUrl
               ∧ parse (html p) = Throw e) →
  on_crawled save parse date_now p w = (Throw e, w).
Proof. apply crawled_rejected_core. Qed.

Lemma crawled_rejected_changes_nothing_witness :
  on_crawled save_example parse_rejects 1793648880000 payload_example full_ledger_example
  = (Throw Rejected, full_ledger_example).
Proof.
  apply crawled_rejected_changes_nothing. right.
  exists "https://pages.example.org/ad/1". by split.
Defined.

(** X10. Two pages with the same [listingPid], handled one after the
    other, leave one record in [archives], that of the second page, and
    two members in the ledger. *)
Theorem rearchived_pid_keeps_last save parse date1 date2 p1 p2 w g1 g2 m1 m2 :
  well_typed (redis w) →
  listingPid (crawled_options p1) = listingPid (crawled_options p2) →
  save (listingURL (crawled_options p1)) (html p1) (imageUrls p1) = Ok g1 →
  parse (html p1) = Ok m1 →
  save (listingURL (crawled_options p2)) (html p2) (imageUrls p2) = Ok g2 →
  parse (html p2) = Ok m2 →
  hash_of "archives"
    (redis (on_crawled save parse date2 p2 (on_crawled save parse date1 p1 w).2).2)
  = <[listingPid (crawled_options p2) := JSON_stringify (JObj (payload_fields p2))]>
      (hash_of "archives" (redis w))
  ∧ set_of "recent_listings"
      (redis (on_crawled save parse date2 p2 (on_crawled save parse date1 p1 w).2).2)
    = {[ recent_of m2 date2 p2; recent_of m1 date1 p1 ]} ∪ set_of "recent_listings" (redis w).
Proof.
  intros Hd Hpid Hs1 Hp1 Hs2 Hp2.
  rewrite (on_crawled_eq save parse date1 p1 w g1 m1 Hd Hs1 Hp1). cbn [snd].
  set (w1 := with_redis _ w).
  assert (well_typed (redis w1)) as Hd1.
  { apply well_typed_insert; [by apply kind_ok_expected|].
    apply well_typed_insert; [by apply kind_ok_expected|done]. }
  rewrite (on_crawled_eq save parse date2 p2 w1 g2 m2 Hd1 Hs2 Hp2). cbn [snd redis with_redis].
  split.
  - unfold hash_of at 1. rewrite lookup_insert_ne, lookup_insert_eq by done.
    unfold hash_of at 1. unfold w1. cbn [redis with_redis].
    rewrite lookup_insert_ne, lookup_insert_eq by done.
    by rewrite Hpid, insert_insert_eq.
  - unfold set_of at 1. rewrite lookup_insert_eq.
    unfold set_of at 1. unfold w1. cbn [redis with_redis].
    rewrite lookup_insert_eq. by rewrite (assoc_L (∪)).
Qed.

Lemma rearchived_pid_keeps_last_witness :
  hash_of "archives"
    (redis (on_crawled save_example parse_example 1793648890000 payload_again_example
              (on_crawled save_example parse_example 1793648880000 payload_example
                 fresh_example).2).2)
  = <[ "7001" := JSON_stringify (JObj (payload_fields payload_again_example)) ]>
      (hash_of "archives" (redis fresh_example)).
Proof.
  exact (proj1 (rearchived_pid_keeps_last save_example parse_example
                  1793648880000 1793648890000 payload_example payload_again_example
                  fresh_example _ _ _ _ well_typed_empty eq_refl eq_refl eq_refl
                  eq_refl eq_refl)).
Defined.

(** ** What no step undoes *)

Lemma step_well_typed JSON_parse save parse w w' :
  step JSON_parse save parse w w' → well_typed (redis w) → well_typed (redis w').
Proof.
  intros Hstep Hd.
  destruct Hstep as [now o w|c uuids r w|date_now p w|w|k v ex w Hk].
  - by destruct (archive_effect JSON_parse now o w Hd) as (_ & _ & _ & _ & _ & ? & _).
  - by apply (run_resume_frame c uuids r w).
  - by apply (on_crawled_frame save parse date_now p w Hd).
  - by apply (on_SIGUSR2_frame w Hd).
  - by apply (expired_frame _ _ _ _ Hd Hk).
Qed.

(** X11. The worker keeps its store and its registry in order: every
    step from a state where each key holds the kind of value the worker
    keeps there, and each tenant's crawler is in the heap, leads to such
    a state. No command of the worker then fails on the type of a key. *)
Theorem steps_keep_well_formed JSON_parse save parse w0 w :
  well_formed w0 → rtc (step JSON_parse save parse) w0 w → well_formed w.
Proof.
  intros Hwf. revert w. apply rtc_ind_r; [done|].
  intros w1 w _ Hstep [Hd Hreg]. split.
  - by eapply step_well_typed.
  - by eapply step_registry_ok.
Qed.

Lemma steps_keep_well_formed_witness :
  well_formed
    (on_SIGUSR2 (archive (λ _, None) "11/2/2026, 7:49:00 PM" request_example
                   fresh_example).2).2.
Proof.
  apply (steps_keep_well_formed (λ _, None) save_example parse_example fresh_example).
  - split; [apply well_typed_empty|]. intros t c H. simpl in H. by rewrite lookup_empty in H.
  - eapply rtc_l; [apply step_archive|]. eapply rtc_l; [apply step_reset|]. apply rtc_refl.
Defined.

Lemma step_keeps_archives JSON_parse save parse w w' :
  step JSON_parse save parse w w' → well_typed (redis w) →
  (∀ pid, is_Some (hash_of "archives" (redis w) !! pid) →
          is_Some (hash_of "archives" (redis w') !! pid))
  ∧ set_of "recent_listings" (redis w) ⊆ set_of "recent_listings" (redis w').
Proof.
  intros Hstep Hd.
  assert (∀ d', d' !! "archives" = redis w !! "archives" →
                d' !! "recent_listings" = redis w !! "recent_listings" →
                (∀ pid, is_Some (hash_of "archives" (redis w) !! pid) →
                        is_Some (hash_of "archives" d' !! pid))
                ∧ set_of "recent_listings" (redis w) ⊆ set_of "recent_listings" d') as Hsame.
  { intros d' Ea Er. unfold hash_of, set_of. by rewrite Ea, Er. }
  destruct Hstep as [now o w|c uuids r w|date_now p w|w|k v ex w Hk].
  - apply Hsame; by apply archive_frame.
  - apply Hsame; by apply (run_resume_frame c uuids r w).
  - destruct (save (listingURL (crawled_options p)) (html p) (imageUrls p))
      as [gitUrl|e] eqn:Hsave.
    + destruct (parse (html p)) as [metadata|e] eqn:Hparse.
      * destruct (crawled_is_archived_core save parse date_now p w gitUrl metadata
                    Hd Hsave Hparse) as (Ha & Hr).
        rewrite Ha, Hr. split; [|apply union_subseteq_r].
        intros pid Hpid.
        destruct (decide (pid = listingPid (crawled_options p))) as [->|Hne].
        -- by rewrite lookup_insert_eq.
        -- by rewrite lookup_insert_ne.
      * rewrite (crawled_rejected_core save parse date_now p w e); [done|].
        right. by exists gitUrl.
    + rewrite (crawled_rejected_core save parse date_now p w e); [done|by left].
  - destruct (on_SIGUSR2_spec w Hd) as (_ & Hk & _).
    apply Hsame; rewrite Hk; by rewrite decide_False by by intros [?|[?|?]].
  - apply Hsame; simpl; apply lookup_delete_ne; intros ->;
      by specialize (Hd _ _ Hk _ eq_refl).
Qed.

(** X12. Nothing archived is ever removed: through every sequence of
    steps, the reset included, each [listingPid] of [archives] stays a
    field of it and each member of the ledger stays a member. In
    particular the ledger never shrinks. *)
Theorem archived_is_never_removed JSON_parse save parse w0 w :
  well_typed (redis w0) →
  rtc (step JSON_parse save parse) w0 w →
  (∀ pid, is_Some (hash_of "archives" (redis w0) !! pid) →
          is_Some (hash_of "archives" (redis w) !! pid))
  ∧ set_of "recent_listings" (redis w0) ⊆ set_of "recent_listings" (redis w).
Proof.
  intros Hd0 Hrtc.
  cut (well_typed (redis w)
       ∧ (∀ pid, is_Some (hash_of "archives" (redis w0) !! pid) →
                 is_Some (hash_of "archives" (redis w) !! pid))
       ∧ set_of "recent_listings" (redis w0) ⊆ set_of "recent_listings" (redis w)).
  { tauto. }
  revert w Hrtc. apply rtc_ind_r; [by split_and!|].
  intros w1 w _ Hstep (Hd & Ha & Hr).
  destruct (step_keeps_archives _ _ _ _ _ Hstep Hd) as [Ha' Hr'].
  split_and!; [by eapply step_well_typed|by auto|by etrans].
Qed.

Lemma archived_is_never_removed_witness :
  set_of "recent_listings" (redis full_ledger_example)
  ⊆ set_of "recent_listings"
      (redis (on_SIGUSR2
                (on_crawled save_example parse_example 1793648880000 payload_example
                   full_ledger_example).2).2).
Proof.
  refine (proj2 (archived_is_never_removed (λ _, None) save_example parse_example
                   full_ledger_example _ _ _)).
  - apply map_Forall_singleton. by intros kd [= <-].
  - eapply rtc_l; [apply step_crawled|]. eapply rtc_l; [apply step_reset|]. apply rtc_refl.
Defined.

Lemma step_keeps_crawlers JSON_parse save parse w w' :
  step JSON_parse save parse w w' → well_typed (redis w) →
  (length (heap w) ≤ length (heap w'))%nat
  ∧ (∀ t, is_Some (crawlers w !! t) → is_Some (crawlers w' !! t)).
Proof.
  intros Hstep Hd.
  destruct Hstep as [now o w|c uuids r w|date_now p w|w|k v ex w Hk]; [| | | |done].
  - destruct (archive_effect JSON_parse now o w Hd) as (launched & _ & _ & Hc & Hh & _).
    rewrite Hc, Hh. destruct launched; [|done]. split; [lia|].
    intros t Ht. destruct (decide (t = clientId o)) as [->|Hne].
    + by rewrite lookup_insert_eq.
    + by rewrite lookup_insert_ne.
  - destruct (run_resume_frame c uuids r w) as (_ & _ & Hc & Hh). by rewrite Hc, Hh.
  - destruct (on_crawled_frame save parse date_now p w Hd) as (_ & _ & Hc & Hh).
    by rewrite Hc, Hh.
  - destruct (on_SIGUSR2_frame w Hd) as (_ & _ & _ & _ & _ & Hc & Hh). by rewrite Hc, Hh.
Qed.

(** X13. The worker never lets go of a crawler: through every sequence of
    steps the number of crawler objects does not go down and a tenant
    that has a crawler in [crawlers] keeps having one, also after a
    reset has cleared the recorded numbers. *)
Theorem crawlers_are_never_dropped JSON_parse save parse w0 w :
  well_typed (redis w0) →
  rtc (step JSON_parse save parse) w0 w →
  (length (heap w0) ≤ length (heap w))%nat
  ∧ (∀ t, is_Some (crawlers w0 !! t) → is_Some (crawlers w !! t)).
Proof.
  intros Hd0 Hrtc.
  cut (well_typed (redis w)
       ∧ (length (heap w0) ≤ length (heap w))%nat
       ∧ (∀ t, is_Some (crawlers w0 !! t) → is_Some (crawlers w !! t))).
  { tauto. }
  revert w Hrtc. apply rtc_ind_r; [by split_and!|].
  intros w1 w _ Hstep (Hd & Hh & Hc).
  destruct (step_keeps_crawlers _ _ _ _ _ Hstep Hd) as [Hh' Hc'].
  split_and!; [by eapply step_well_typed|lia|by auto].
Qed.

Lemma crawlers_are_never_dropped_witness :
  is_Some (crawlers (on_SIGUSR2 busy_example).2 !! "t1").
Proof.
  refine (proj2 (crawlers_are_never_dropped (λ _, None) save_example parse_example
                   busy_example _ _ _) "t1" _).
  - apply map_Forall_singleton. by intros kd [= <-].
  - eapply rtc_l; [apply step_reset|]. apply rtc_refl.
  - by exists 0%nat.
Defined.

(** ** The request handler *)

(** X14. The handler emits ['crawled'] exactly when the page gave its
    content, had a [.gallery .swipe] element that could be hovered and
    clicked, showed [.gallery.big] and gave its images; a page without
    the element makes it throw with nothing emitted. ['crawled'] is then
    the first event, and a screenshot or a [close] that fails afterwards
    does not take it back. *)
Theorem crawled_needs_the_gallery request page :
  ((∃ p, emit_crawled p ∈ (requestHandler request page).1)
   ↔ ∃ html imageUrls,
       page_content page = Ok html ∧ gallery_swipe page = Some (Ok ())
       ∧ gallery_big page = Ok () ∧ slide_srcs page = Ok imageUrls)
  ∧ (gallery_swipe page = None →
     (requestHandler request page).1 = []
     ∧ ∃ e, (requestHandler request page).2 = Throw e)
  ∧ (∀ ev rest, (requestHandler request page).1 = ev :: rest →
       ∃ html imageUrls, page_content page = Ok html ∧ slide_srcs page = Ok imageUrls
                         ∧ ev = emit_crawled (crawled request html imageUrls)).
Proof.
  unfold requestHandler.
  destruct (page_content page) as [html|e0].
  2:{ split_and!.
      - split; [by intros [p ?%elem_of_nil]|by intros (? & ? & ? & _)].
      - intros _. split; [done|by exists e0].
      - by intros ev rest. }
  destruct (gallery_swipe page) as [[[]|e1]|].
  2:{ split_and!.
      - split; [by intros [p ?%elem_of_nil]|by intros (? & ? & _ & ? & _)].
      - done.
      - by intros ev rest. }
  2:{ split_and!.
      - split; [by intros [p ?%elem_of_nil]|by intros (? & ? & _ & ? & _)].
      - intros _. split; [done|by exists TypeError].
      - by intros ev rest. }
  destruct (gallery_big page) as [[]|e2].
  2:{ split_and!.
      - split; [by intros [p ?%elem_of_nil]|by intros (? & ? & _ & _ & ? & _)].
      - done.
      - by intros ev rest. }
  destruct (slide_srcs page) as [imageUrls|e3].
  2:{ split_and!.
      - split; [by intros [p ?%elem_of_nil]|by intros (? & ? & _ & _ & _ & ?)].
      - done.
      - by intros ev rest. }
  split_and!.
  - split; [by exists html, imageUrls|]. intros _.
    exists (crawled request html imageUrls).
    destruct (page_screenshot page); apply list_elem_of_here.
  - done.
  - intros ev rest E. exists html, imageUrls. split_and!; [done..|].
    destruct (page_screenshot page); by injection E as <- _.
Qed.

Lemma crawled_needs_the_gallery_witness :
  (requestHandler {| url := Some "https://example.org/ad/1"; userData := request_example |}
     page_without_gallery).1 = [].
Proof.
  exact (proj1 (proj1 (proj2 (crawled_needs_the_gallery
                                {| url := Some "https://example.org/ad/1";
                                   userData := request_example |}
                                page_without_gallery)) eq_refl)).
Defined.

(** X15. The payload of a ['crawled'] event carries the url of the
    request, the images of the page without repetitions, and the options
    the request was tagged with; the ['screenshot'] event that follows
    carries the [listingUUID] of the same options. *)
Theorem crawled_payload_is_tagged request page p :
  emit_crawled p ∈ (requestHandler request page).1 →
  crawled_url p = url request
  ∧ crawled_options p = userData request
  ∧ page_content page = Ok (html p)
  ∧ NoDup (imageUrls p)
  ∧ (∃ srcs, slide_srcs page = Ok srcs ∧ ∀ x, x ∈ imageUrls p ↔ x ∈ srcs)
  ∧ (∀ buffer uuid, emit_screenshot buffer uuid ∈ (requestHandler request page).1 →
       uuid = listingUUID (crawled_options p) ∧ page_screenshot page = Ok buffer).
Proof.
  unfold requestHandler.
  destruct (page_content page) as [html|e0]; [|by intros ?%elem_of_nil].
  destruct (gallery_swipe page) as [[[]|e1]|]; [|by intros ?%elem_of_nil..].
  destruct (gallery_big page) as [[]|e2]; [|by intros ?%elem_of_nil].
  destruct (slide_srcs page) as [srcs|e3]; [|by intros ?%elem_of_nil].
  intros Hin.
  assert (p = crawled request html srcs) as ->.
  { destruct (page_screenshot page); cbn [fst] in Hin.
    - apply elem_of_cons in Hin as [[= ->]|Hin]; [done|].
      by apply list_elem_of_singleton in Hin.
    - by apply list_elem_of_singleton in Hin as [= ->]. }
  simpl. split_and!; [done|done|done|apply NoDup_Array_from_Set| |].
  - exists srcs. split; [done|]. intros x. apply elem_of_Array_from_Set.
  - intros buffer uuid. destruct (page_screenshot page) as [b|e]; cbn [fst].
    + intros [[=]|[= -> ->]%list_elem_of_singleton]%elem_of_cons. done.
    + by intros [=]%list_elem_of_singleton.
Qed.

Lemma crawled_payload_is_tagged_witness :
  imageUrls (crawled {| url := Some "https://example.org/ad/1"; userData := request_example |}
               "<html></html>"
               ["https://example.org/1.jpg"; "https://example.org/2.jpg";
                "https://example.org/1.jpg"])
  = ["https://example.org/1.jpg"; "https://example.org/2.jpg"]
  ∧ NoDup (imageUrls (crawled {| url := Some "https://example.org/ad/1";
                                 userData := request_example |}
                        "<html></html>"
                        ["https://example.org/1.jpg"; "https://example.org/2.jpg";
                         "https://example.org/1.jpg"])).
Proof.
  split; [reflexivity|].
  refine (proj1 (proj2 (proj2 (proj2 (crawled_payload_is_tagged
            {| url := Some "https://example.org/ad/1"; userData := request_example |}
            page_example _ _))))).
  apply list_elem_of_here.
Defined.

(** X16. The pages of one batch are archived under one [listingPid], that
    of the call that dispatched the batch: when the handler has crawled
    two requests of the batch and the listener has archived both pages,
    [archives] holds one record for them, the page handled last. *)
Theorem batch_is_archived_under_one_pid save parse date1 date2 urlMap o r1 r2 page1 page2
    p1 p2 w g1 g2 m1 m2 :
  well_typed (redis w) →
  r1 ∈ requests_of urlMap o → r2 ∈ requests_of urlMap o →
  emit_crawled p1 ∈ (requestHandler r1 page1).1 →
  emit_crawled p2 ∈ (requestHandler r2 page2).1 →
  save (listingURL (crawled_options p1)) (html p1) (imageUrls p1) = Ok g1 →
  parse (html p1) = Ok m1 →
  save (listingURL (crawled_options p2)) (html p2) (imageUrls p2) = Ok g2 →
  parse (html p2) = Ok m2 →
  hash_of "archives"
    (redis (on_crawled save parse date2 p2 (on_crawled save parse date1 p1 w).2).2)
  = <[listingPid o := JSON_stringify (JObj (payload_fields p2))]>
      (hash_of "archives" (redis w)).
Proof.
  intros Hd Hr1 Hr2 He1 He2 Hs1 Hp1 Hs2 Hp2.
  assert (∀ r page p, r ∈ requests_of urlMap o →
            emit_crawled p ∈ (requestHandler r page).1 → crawled_options p = o) as Hopt.
  { intros r page p (m & -> & _)%list_elem_of_fmap Hin.
    revert Hin. unfold requestHandler.
    destruct (page_content page) as [html|e0]; [|by intros ?%elem_of_nil].
    destruct (gallery_swipe page) as [[[]|e1]|]; [|by intros ?%elem_of_nil..].
    destruct (gallery_big page) as [[]|e2]; [|by intros ?%elem_of_nil].
    destruct (slide_srcs page) as [srcs|e3]; [|by intros ?%elem_of_nil].
    destruct (page_screenshot page); cbn [fst].
    - intros [[= ->]|Hin]%elem_of_cons; [done|].
      by apply list_elem_of_singleton in Hin.
    - by intros [= ->]%list_elem_of_singleton. }
  pose proof (Hopt _ _ _ Hr1 He1) as E1. pose proof (Hopt _ _ _ Hr2 He2) as E2.
  destruct (crawled_is_archived_core save parse date1 p1 w g1 m1 Hd Hs1 Hp1) as [Ha1 _].
  assert (well_typed (redis (on_crawled save parse date1 p1 w).2)) as Hd1
    by by apply on_crawled_frame.
  destruct (crawled_is_archived_core save parse date2 p2 _ g2 m2 Hd1 Hs2 Hp2) as [Ha2 _].
  by rewrite Ha2, Ha1, E1, E2, insert_insert_eq.
Qed.

Lemma batch_is_archived_under_one_pid_witness :
  hash_of "archives"
    (redis (on_crawled save_example parse_example 1793648890000
              (crawled {| url := Some "https://example.org/ad/1"; userData := request_example |}
                       "<html></html>" [])
              (on_crawled save_example parse_example 1793648880000
                 (crawled {| url := Some "https://example.org/ad/0";
                             userData := request_example |} "<html></html>" [])
                 fresh_example).2).2)
  = <[ "7001" :=
         JSON_stringify
           (JObj (payload_fields
                    (crawled {| url := Some "https://example.org/ad/1";
                                userData := request_example |} "<html></html>" []))) ]>
      (hash_of "archives" (redis fresh_example)).
Proof.
  apply (batch_is_archived_under_one_pid save_example parse_example _ _
           ["u0 https://example.org/ad/0"; "u1 https://example.org/ad/1"] request_example
           {| url := Some "https://example.org/ad/0"; userData := request_example |}
           {| url := Some "https://example.org/ad/1"; userData := request_example |}
           {| page_content := Ok "<html></html>"; gallery_swipe := Some (Ok ());
              gallery_big := Ok (); slide_srcs := Ok []; page_screenshot := Ok "PNG";
              page_close := Ok () |}
           {| page_content := Ok "<html></html>"; gallery_swipe := Some (Ok ());
              gallery_big := Ok (); slide_srcs := Ok []; page_screenshot := Ok "PNG";
              page_close := Ok () |}
           _ _ fresh_example
           "https://pages.example.org/ad/1" "https://pages.example.org/ad/1"
           (JObj [("title", JStr "ad")]) (JObj [("title", JStr "ad")])).
  - apply well_typed_empty.
  - apply list_elem_of_here.
  - apply list_elem_of_further, list_elem_of_here.
  - apply list_elem_of_here.
  - apply list_elem_of_here.
  - reflexivity.
  - reflexivity.
  - reflexivity.
  - reflexivity.
Defined.

(** ** The reset, in general *)

(** X17. On a store of the worker the reset does not throw. It deletes
    [crawlers] and every lock; it leaves [queued], [userConfig],
    [archives] and [recent_listings] as they were; it creates no key; and
    it does not touch the worker's own crawlers, which stay in
    [this.crawlers], running or not. *)
Theorem reset_deletes_exactly w :
  well_typed (redis w) →
  (on_SIGUSR2 w).1 = Ok ()
  ∧ redis (on_SIGUSR2 w).2 !! "crawlers" = None
  ∧ (∀ uuid, redis (on_SIGUSR2 w).2 !! lock_key uuid = None)
  ∧ (∀ k, k ∈ ["queued"; "userConfig"; "archives"; "recent_listings"] →
          redis (on_SIGUSR2 w).2 !! k = redis w !! k)
  ∧ (∀ k v, redis (on_SIGUSR2 w).2 !! k = Some v → redis w !! k = Some v)
  ∧ crawlers (on_SIGUSR2 w).2 = crawlers w
  ∧ heap (on_SIGUSR2 w).2 = heap w.
Proof.
  intros Hd. destruct (on_SIGUSR2_spec w Hd) as (Hok & Hk & Hc & Hh).
  split_and!; [done| | | | |done|done].
  - rewrite Hk. by rewrite decide_True by by left.
  - intros uuid. rewrite Hk. rewrite decide_True; [done|].
    right. right. apply matches_lock_key.
  - intros k Hin. rewrite Hk. rewrite decide_False; [done|].
    repeat (apply elem_of_cons in Hin as [->|Hin]; [by intros [?|[?|?]]|]).
    by apply elem_of_nil in Hin.
  - intros k v. rewrite Hk. by case_decide.
Qed.

Lemma reset_deletes_exactly_witness :
  redis (on_SIGUSR2 reset_example).2 !! "queued" = redis reset_example !! "queued".
Proof.
  refine (proj1 (proj2 (proj2 (proj2 (reset_deletes_exactly reset_example _)))) "queued" _).
  - apply map_Forall_insert_2; [by intros kd [= <-]|].
    apply map_Forall_insert_2; [by intros kd [= <-]|].
    apply map_Forall_singleton. by intros kd [= <-].
  - apply list_elem_of_here.
Defined.

(** X18. After a reset the worker creates a crawler for a tenant that
    already has one: the first admitted call of the tenant finds no
    recorded number, launches a new crawler, records 1 and waits for its
    run, and the crawler the tenant had stays in the heap as it was, out
    of [this.crawlers]. *)
Theorem reset_forgets_crawlers (JSON_parse : string → option UserConfig) now o w cfg c cr :
  well_formed w →
  crawlers w !! clientId o = Some c →
  heap w !! c = Some cr →
  config_of JSON_parse (clientId o) (redis w) = Some cfg →
  ∃ w',
    archive JSON_parse now o (on_SIGUSR2 w).2
    = (Ok (Dispatched (Some (length (heap w))) (batch_of o w)
             (Awaiting (length (heap w)) (uuids_of (batch_of o w)))), w')
    ∧ count_of (clientId o) (redis w') = 1
    ∧ crawlers w' !! clientId o = Some (length (heap w))
    ∧ length (heap w') = S (length (heap w))
    ∧ heap w' !! c = Some cr.
Proof.
  intros [Hd Hreg] Hc Hcr Hcfg.
  destruct (on_SIGUSR2_frame w Hd) as (Hd1 & Hz & Hu & Hq & Hl & Hc1 & Hh1).
  set (w1 := (on_SIGUSR2 w).2) in *.
  assert (truthy_string (lock_of (listingUUID o) (redis w1)) = false) as Hlock.
  { unfold lock_of. by rewrite Hl. }
  assert (config_of JSON_parse (clientId o) (redis w1) = Some cfg) as Hcfg1.
  { rewrite <- Hcfg. unfold config_of, hash_of. by rewrite Hu. }
  assert (batch_of o w1 = batch_of o w) as Hb.
  { unfold batch_of, hash_of. by rewrite Hq. }
  assert (launches JSON_parse (clientId o) w1 = true) as Hlaunch.
  { unfold launches. rewrite Hc1, Hc. unfold zset_of. by rewrite Hz. }
  rewrite (archive_unlocked JSON_parse now o w1 cfg Hd1 Hlock Hcfg1). cbv zeta.
  destruct (admitted_world_spec JSON_parse now o w1 Hd1)
    as (_ & _ & _ & Hcount & Ec & Eh & _).
  rewrite Hlaunch in Hcount, Ec, Eh. rewrite Hh1 in Ec, Eh.
  set (w3 := admitted_world JSON_parse now o w1) in *.
  assert (heap w3 !! length (heap w) = Some {| running := false; requestQueue := [] |})
    as Hnew by (rewrite Eh; by apply list_lookup_middle).
  rewrite Ec, lookup_insert_eq, Hb.
  pose proof (run_eq _ _ (batch_of o w) o w3 Hnew) as E. cbv zeta in E.
  rewrite E. cbn [running]. eexists. split; [done|].
  cbn [redis crawlers heap with_heap].
  assert (c < length (heap w))%nat as Hlt by by eapply lookup_lt_Some.
  split_and!.
  - rewrite Hcount. cbn [andb]. rewrite bool_decide_true by done.
    by rewrite count_of_absent.
  - by rewrite Ec, lookup_insert_eq.
  - rewrite length_insert, Eh, length_app. simpl. lia.
  - rewrite list_lookup_insert_ne by lia. rewrite Eh. by rewrite lookup_app_l.
Qed.

Lemma reset_forgets_crawlers_witness :
  ∃ w',
    archive (λ _, None) "11/2/2026, 7:49:00 PM" request_example (on_SIGUSR2 busy_example).2
    = (Ok (Dispatched (Some 1%nat) (batch_of request_example busy_example)
             (Awaiting 1%nat (uuids_of (batch_of request_example busy_example)))), w')
    ∧ count_of "t1" (redis w') = 1
    ∧ heap w' !! 0%nat = Some {| running := true; requestQueue := [] |}.
Proof.
  destruct (reset_forgets_crawlers (λ _, None) "11/2/2026, 7:49:00 PM" request_example
              busy_example ConfigNull 0%nat {| running := true; requestQueue := [] |})
    as (w' & E & Hcount & _ & _ & Hold).
  - split.
    + apply map_Forall_singleton. by intros kd [= <-].
    + intros t c H. simpl in H. apply lookup_singleton_Some in H as [_ <-]. simpl. lia.
  - reflexivity.
  - reflexivity.
  - reflexivity.
  - exists w'. split; [exact E|]. split; [exact Hcount|exact Hold].
Defined.

(** ** A lock from the call to the end of the run *)




(** ** Calls that overlap *)

Lemma finish_wait {A B} (m : M A) (rest : A → Async B) w :
  finish (wait m rest) w = (x ← m; finish (rest x)) w.
Proof. rewrite bind_unfold. unfold wait. simpl. by destruct (m w) as [[x|e] w']. Qed.

Lemma bind_assoc {A B C} (m : M A) (f : A → M B) (g : B → M C) w :
  ((m ≫= f) ≫= g) w = (m ≫= (λ x, f x ≫= g)) w.
Proof. rewrite !bind_unfold. by destruct (m w) as [[x|e] w']. Qed.

Lemma bind_ext {A B} (m : M A) (f g : A → M B) w :
  (∀ x w', f x w' = g x w') → (m ≫= f) w = (m ≫= g) w.
Proof. intros E. rewrite !bind_unfold. by destruct (m w) as [[x|e] w']. Qed.

(** A call that runs to its end alone is a call of [archive]. *)
Lemma finish_archive_async JSON_parse now o w :
  finish (archive_async JSON_parse now o) w = archive JSON_parse now o w.
Proof.
  unfold archive_async, archive. cbv zeta.
  rewrite finish_wait. apply bind_ext. intros isRunning w1.
  destruct (negb (truthy_string isRunning)).
  - rewrite finish_wait. apply bind_ext. intros config w2.
    rewrite finish_wait, bind_assoc. apply bind_ext. intros userConfig w3.
    rewrite bind_assoc. apply bind_ext. intros numberOfCrawlers w4.
    rewrite bind_unfold. unfold mret at 1, M_ret at 1. cbv beta iota. cbn [fst snd].
    rewrite finish_wait. apply bind_ext. intros [] w5.
    rewrite finish_wait. apply bind_ext. intros results w6.
    rewrite finish_wait, bind_assoc. apply bind_ext. intros queued w7.
    rewrite bind_assoc. apply bind_ext. intros keys w8.
    rewrite bind_assoc. apply bind_ext. intros [] w9.
    rewrite bind_assoc. apply bind_ext. intros launched w10.
    assert (∀ urls w11,
      ((crawler ← launchCrawler (clientId o);
        mret (inl (urls, crawler) : (list string * nat) + Outcome)) ≫=
       (λ next, finish
          match next with
          | inl (urls, crawler) =>
              wait (set_crawler (clientId o) crawler;;
                    crawler ← crawler_of (clientId o);
                    status ← run crawler urls o;
                    mret (Dispatched crawler urls status))
                   (λ outcome, Return (Ok outcome))
          | inr outcome => Return (Ok outcome)
          end)) w11
      = ((crawler ← launchCrawler (clientId o); set_crawler (clientId o) crawler);;
         crawler ← crawler_of (clientId o);
         status ← run crawler urls o;
         mret (Dispatched crawler urls status)) w11) as Hlaunch.
    { intros urls w11. rewrite !bind_assoc. apply bind_ext. intros crawler w12.
      rewrite bind_unfold. unfold mret at 1, M_ret at 1. cbv beta iota.
      rewrite finish_wait, bind_assoc. apply bind_ext. intros [] w13.
      rewrite bind_assoc. apply bind_ext. intros crawler' w14.
      rewrite bind_assoc. apply bind_ext. intros status w15.
      by rewrite bind_unfold. }
    destruct launched as [c|]; [|apply Hlaunch].
    destruct (negb _ || _); [apply Hlaunch|].
    rewrite (bind_unfold (mret ())). unfold mret at 2, M_ret at 1. cbv beta iota.
    rewrite bind_assoc. apply bind_ext. intros crawler' w13.
    rewrite bind_assoc. apply bind_ext. intros status w14.
    by rewrite bind_unfold.
  - rewrite finish_wait, bind_assoc. apply bind_ext. intros [] w2.
    by rewrite bind_unfold.
Qed.

Lemma resume_wait {A B} (m : M A) (rest : A → Async B) w x w' :
  m w = (Ok x, w') → resume (wait m rest) w = (rest x, w').
Proof. intros E. unfold wait. simpl. by rewrite E. Qed.

Lemma interleave_first {A B} later (a a' : Async A) (b : Async B) w w' :
  resume a w = (a', w') →
  interleave (true :: later) a b w = interleave later a' b w'.
Proof. intros E. simpl. by rewrite E. Qed.

Lemma interleave_second {A B} later (a : Async A) (b b' : Async B) w w' :
  resume b w = (b', w') →
  interleave (false :: later) a b w = interleave later a b' w'.
Proof. intros E. simpl. by rewrite E. Qed.

(** X20. Two calls of one tenant made one right after the other, so that
    their segments run in turns, do not see each other: when neither lock
    is held and the first would launch a crawler, both set their lock,
    both launch a crawler and both start a run, each with the whole
    queue in its batch. The recorded number goes up by two whatever the
    limit is, also when both calls are for the same listing. *)
Theorem overlapping_calls_both_launch (JSON_parse : string → option UserConfig)
    now1 now2 o1 o2 w cfg :
  well_formed w →
  clientId o2 = clientId o1 →
  redis w !! lock_key (listingUUID o1) = None →
  redis w !! lock_key (listingUUID o2) = None →
  config_of JSON_parse (clientId o1) (redis w) = Some cfg →
  launches JSON_parse (clientId o1) w = true →
  let c1 := length (heap w) in
  let c2 := S (length (heap w)) in
  ∃ w',
    interleave (in_turns 7) (archive_async JSON_parse now1 o1)
               (archive_async JSON_parse now2 o2) w
    = (Return (Ok (Dispatched (Some c1) (batch_of o1 w)
                     (Awaiting c1 (uuids_of (batch_of o1 w))))),
       Return (Ok (Dispatched (Some c2) (batch_of o2 w)
                     (Awaiting c2 (uuids_of (batch_of o2 w))))),
       w')
    ∧ count_of (clientId o1) (redis w') = count_of (clientId o1) (redis w) + 2
    ∧ limit_of JSON_parse (clientId o1) (redis w')
      = limit_of JSON_parse (clientId o1) (redis w)
    ∧ (listingUUID o1 ≠ listingUUID o2 → lock_of (listingUUID o1) (redis w') = Some now1)
    ∧ lock_of (listingUUID o2) (redis w') = Some now2
    ∧ length (heap w') = S (S (length (heap w))).
Proof.
  intros [Hd Hreg] Ht Hfree1 Hfree2 Hcfg Hl. cbv zeta.
  assert (lock_of (listingUUID o1) (redis w) = None) as Hlock1
    by (unfold lock_of; by rewrite Hfree1).
  assert (lock_of (listingUUID o2) (redis w) = None) as Hlock2
    by (unfold lock_of; by rewrite Hfree2).
  unfold archive_async. cbv zeta. rewrite Ht.
  set (t := clientId o1) in *.
  cbn [in_turns].
  (* l.34 *)
  erewrite interleave_first; cycle 1.
  { apply resume_wait. unfold await. fold (lock_key (listingUUID o1)).
    rewrite (well_typed_GET _ _ Hd). reflexivity. }
  rewrite Hlock1. cbn [truthy_string negb]. cbv iota.
  erewrite interleave_second; cycle 1.
  { apply resume_wait. unfold await. fold (lock_key (listingUUID o2)).
    rewrite (well_typed_GET _ _ Hd). reflexivity. }
  rewrite Hlock2. cbn [truthy_string negb]. cbv iota.
  (* l.39 *)
  erewrite interleave_first; cycle 1.
  { apply resume_wait. unfold await, Redis.HGET.
    rewrite (well_typed_hash _ "userConfig" Hd) by done. reflexivity. }
  erewrite interleave_second; cycle 1.
  { apply resume_wait. unfold await, Redis.HGET.
    rewrite (well_typed_hash _ "userConfig" Hd) by done. reflexivity. }
  cbv beta.
  (* l.39-40 *)
  assert (parse_reply JSON_parse (hash_of "userConfig" (redis w) !! t) w = (Ok cfg, w))
    as Hparse.
  { unfold config_of in Hcfg. unfold parse_reply.
    destruct (hash_of "userConfig" (redis w) !! t); [by rewrite Hcfg|].
    by injection Hcfg as <-. }
  assert ((parse_reply JSON_parse (hash_of "userConfig" (redis w) !! t)
           ≫= λ userConfig, await (Redis.ZSCORE "crawlers" t)
           ≫= λ numberOfCrawlers, mret (userConfig, numberOfCrawlers)) w
          = (Ok (cfg, zset_of "crawlers" (redis w) !! t), w)) as Hread.
  { rewrite bind_unfold, Hparse. cbv beta iota.
    rewrite bind_unfold. unfold await at 1, Redis.ZSCORE.
    rewrite (well_typed_zset _ "crawlers" Hd) by done. reflexivity. }
  erewrite interleave_first; [|apply resume_wait, Hread].
  erewrite interleave_second; [|apply resume_wait, Hread].
  cbv beta. cbn [fst snd].
  (* l.42 *)
  erewrite interleave_first; cycle 1.
  { apply resume_wait. unfold await_write. cbv beta iota.
    fold (lock_key (listingUUID o1)). fold (locked_world now1 o1 w). reflexivity. }
  set (wA := locked_world now1 o1 w).
  assert (well_typed (redis wA)) as HdA by by apply well_typed_SET_lock.
  erewrite interleave_second; cycle 1.
  { apply resume_wait. unfold await_write. cbv beta iota.
    fold (lock_key (listingUUID o2)). fold (locked_world now2 o2 wA). reflexivity. }
  set (wB := locked_world now2 o2 wA).
  assert (well_typed (redis wB)) as HdB by by apply well_typed_SET_lock.
  cbv beta.
  (* l.44-47 *)
  erewrite interleave_first; [|apply resume_wait, multi_exec_drain, HdB].
  erewrite interleave_second; [|apply resume_wait, multi_exec_drain, HdB].
  cbv beta. cbn [lookup list_lookup].
  assert (hash_of "queued" (redis wB) = hash_of "queued" (redis w)) as ->.
  { unfold wB, wA, locked_world. cbn [redis with_redis].
    by rewrite !hash_of_SET_lock. }
  set (fields := map_to_list (hash_of "queued" (redis w))).
  (* l.48-55, up to [await launchCrawler(...)] *)
  assert (∀ keys v, well_typed (redis v) →
            let v' := (launchCrawler t (detached_each (λ key, Redis.HDEL "queued" key)
                                                      keys v).2).2 in
            well_typed (redis v') ∧ crawlers v' = crawlers v
            ∧ heap v' = heap v ++ [{| running := false; requestQueue := [] |}]
            ∧ count_of t (redis v') = count_of t (redis v) + 1
            ∧ (∀ k, k ≠ "queued" → k ≠ "crawlers" → redis v' !! k = redis v !! k))
    as Hlaunched.
  { intros keys v Hv. cbv zeta.
    destruct (drain_fields keys v) as (_ & Hk & Hv1); [by apply well_typed_hash|].
    cbv zeta in Hk, Hv1. specialize (Hv1 Hv).
    destruct (detached_each_process (λ key, Redis.HDEL "queued" key) keys v) as [Hc1 Hh1].
    set (v1 := (detached_each (λ key, Redis.HDEL "queued" key) keys v).2) in *.
    rewrite launchCrawler_eq, ZINCRBY_spec by done. cbn [snd redis crawlers heap with_redis with_heap].
    split_and!.
    - apply well_typed_insert; [by apply kind_ok_expected|done].
    - done.
    - by rewrite Hh1.
    - unfold count_of at 1. unfold zset_of at 1. rewrite !lookup_insert_eq.
      change (count_of t (redis v1) + 1 = count_of t (redis v) + 1).
      f_equal. apply count_of_same. by apply Hk.
    - intros k Hq Hc. by rewrite lookup_insert_ne, Hk. }
  assert (∀ (o : Options) (vals keys : list string) (v : World),
    crawlers v = crawlers w →
    (queued ← as_array (Some (Redis.RArray vals));
     keys' ← as_array (Some (Redis.RArray keys));
     detached_each (λ key, Redis.HDEL "queued" key) keys';;
     launched ← crawler_of t;
     match launched with
     | None =>
         crawler ← launchCrawler t;
         mret (inl (filter (λ url, url ≠ "")
                      (Array_from_Set (queued ++ [listingUUID o +:+ " " +:+ listingURL o])),
                    crawler))
     | Some _ =>
         if negb (truthy_number (zset_of "crawlers" (redis w) !! t))
            || (default 0 (zset_of "crawlers" (redis w) !! t) <? js_or (crawlerLimit_of cfg) 1)
         then
           crawler ← launchCrawler t;
           mret (inl (filter (λ url, url ≠ "")
                        (Array_from_Set (queued ++ [listingUUID o +:+ " " +:+ listingURL o])),
                      crawler))
         else
           crawler ← crawler_of t;
           status ← run crawler
                      (filter (λ url, url ≠ "")
                         (Array_from_Set (queued ++ [listingUUID o +:+ " " +:+ listingURL o])))
                      o;
           mret (inr (Dispatched crawler
                        (filter (λ url, url ≠ "")
                           (Array_from_Set
                              (queued ++ [listingUUID o +:+ " " +:+ listingURL o])))
                        status))
     end) v
    = (Ok (inl (filter (λ url, url ≠ "") (Array_from_Set (vals ++ [entry_of o])),
                length (heap v))),
       (launchCrawler t (detached_each (λ key, Redis.HDEL "queued" key) keys v).2).2))
    as Hsegment.
  { intros o vals keys v Hc.
    rewrite bind_unfold. simpl as_array. unfold mret at 1, M_ret at 1. cbv beta iota.
    rewrite bind_unfold. unfold mret at 1, M_ret at 1. cbv beta iota.
    rewrite bind_unfold, detached_each_ok. cbv beta iota.
    destruct (detached_each_process (λ key, Redis.HDEL "queued" key) keys v) as [Hc1 Hh1].
    set (v1 := (detached_each (λ key, Redis.HDEL "queued" key) keys v).2) in *.
    rewrite bind_unfold. unfold crawler_of at 1. cbv beta iota. rewrite Hc1, Hc.
    assert ((crawler ← launchCrawler t;
             mret (inl (filter (λ url, url ≠ "")
                          (Array_from_Set (vals ++ [listingUUID o +:+ " " +:+ listingURL o])),
                        crawler) : (list string * nat) + Outcome)) v1
            = (Ok (inl (filter (λ url, url ≠ "") (Array_from_Set (vals ++ [entry_of o])),
                        length (heap v))),
               (launchCrawler t v1).2)) as Hgo.
    { rewrite bind_unfold, launchCrawler_eq. cbv beta iota. by rewrite Hh1. }
    unfold launches in Hl. unfold limit_of in Hl. rewrite Hcfg in Hl.
    change (default ConfigNull (Some cfg)) with cfg in Hl. unfold count_of in Hl.
    destruct (crawlers w !! t); [|exact Hgo].
    rewrite Hl. exact Hgo. }
  erewrite interleave_first; cycle 1.
  { apply resume_wait, Hsegment. reflexivity. }
  destruct (Hlaunched fields.*1 wB HdB) as (Hd5 & Hc5 & Hh5 & Hn5 & Hk5).
  set (w5 := (launchCrawler t (detached_each (λ key, Redis.HDEL "queued" key)
                                              fields.*1 wB).2).2) in *.
  erewrite interleave_second; cycle 1.
  { apply resume_wait, Hsegment. exact Hc5. }
  destruct (Hlaunched fields.*1 w5 Hd5) as (Hd6 & Hc6 & Hh6 & Hn6 & Hk6).
  set (w6 := (launchCrawler t (detached_each (λ key, Redis.HDEL "queued" key)
                                              fields.*1 w5).2).2) in *.
  cbv beta iota.
  fold (batch_of o1 w). fold (batch_of o2 w).
  change (heap wB) with (heap w) in *.
  assert (length (heap w5) = S (length (heap w))) as ->.
  { rewrite Hh5, length_app. simpl. lia. }
  (* l.53 or l.55, resumed, and l.57 *)
  assert (∀ (o : Options) urls (c : nat) v,
    heap v !! c = Some {| running := false; requestQueue := [] |} →
    (set_crawler t c;;
     crawler ← crawler_of t;
     status ← run crawler urls o;
     mret (Dispatched crawler urls status)) v
    = (Ok (Dispatched (Some c) urls (Awaiting c (uuids_of urls))),
       with_heap (<[c := {| running := true; requestQueue := requests_of urls o |}]> (heap v))
                 (with_crawlers (<[t := c]> (crawlers v)) v))) as Hlast.
  { intros o urls c v Hc.
    rewrite bind_unfold. unfold set_crawler at 1. cbv beta iota.
    rewrite bind_unfold. unfold crawler_of at 1. cbv beta iota.
    cbn [crawlers with_crawlers]. rewrite lookup_insert_eq.
    rewrite bind_unfold.
    rewrite (run_eq c {| running := false; requestQueue := [] |}) by exact Hc.
    reflexivity. }
  assert (heap w6 = (heap w ++ [{| running := false; requestQueue := [] |}])
                    ++ [{| running := false; requestQueue := [] |}]) as Hh.
  { by rewrite Hh6, Hh5. }
  erewrite interleave_first; cycle 1.
  { apply resume_wait, Hlast. rewrite Hh, lookup_app_l.
    - apply list_lookup_middle. done.
    - rewrite length_app. simpl. lia. }
  erewrite interleave_second; cycle 1.
  { apply resume_wait, Hlast. cbn [heap with_heap with_crawlers].
    rewrite list_lookup_insert_ne by lia. rewrite Hh.
    apply list_lookup_middle. rewrite length_app. simpl. lia. }
  cbn [interleave]. eexists. split; [reflexivity|].
  cbn [redis heap with_heap with_crawlers].
  assert (∀ k, k ≠ "queued" → k ≠ "crawlers" → redis w6 !! k = redis wB !! k) as Hk.
  { intros k Hq Hc. by rewrite Hk6, Hk5. }
  assert (∀ k, expected_kind k ≠ Some KString → redis wB !! k = redis w !! k) as HkB.
  { intros k Hkind. unfold wB, wA, locked_world. cbn [redis with_redis].
    by rewrite !lookup_SET_ne by by apply lock_key_ne. }
  split_and!.
  - rewrite Hn6, Hn5.
    assert (count_of t (redis wB) = count_of t (redis w)) as ->; [|lia].
    apply count_of_same. by apply HkB.
  - apply limit_of_same. rewrite Hk by done. by apply HkB.
  - intros Hne. unfold lock_of. rewrite Hk by by apply lock_key_ne.
    unfold wB, wA, locked_world. cbn [redis with_redis].
    rewrite lookup_SET_ne by (intros E; by apply lock_key_inj in E).
    unfold Redis.SET. by rewrite lookup_insert_eq.
  - unfold lock_of. rewrite Hk by by apply lock_key_ne.
    unfold wB, locked_world, Redis.SET. cbn [redis with_redis].
    by rewrite lookup_insert_eq.
  - rewrite !length_insert, Hh, !length_app. simpl. lia.
Qed.

Lemma overlapping_calls_both_launch_witness :
  ∃ urls1 urls2 w',
    interleave (in_turns 7)
      (archive_async parse_limit_example "11/2/2026, 7:49:00 PM" request_example)
      (archive_async parse_limit_example "11/2/2026, 7:49:00 PM" request2_example)
      fresh_example
    = (Return (Ok (Dispatched (Some 0%nat) urls1 (Awaiting 0 (uuids_of urls1)))),
       Return (Ok (Dispatched (Some 1%nat) urls2 (Awaiting 1 (uuids_of urls2)))),
       w')
    ∧ count_of "t1" (redis w') = 2
    ∧ limit_of parse_limit_example "t1" (redis w') = 1.
Proof.
  assert (well_formed fresh_example) as Hwf.
  { split; [apply well_typed_empty|]. intros t c H. simpl in H. by rewrite lookup_empty in H. }
  destruct (overlapping_calls_both_launch parse_limit_example
              "11/2/2026, 7:49:00 PM" "11/2/2026, 7:49:00 PM"
              request_example request2_example fresh_example ConfigNull
              Hwf eq_refl eq_refl eq_refl eq_refl eq_refl)
    as (w' & E & Hcount & Hlimit & _).
  exists (batch_of request_example fresh_example),
         (batch_of request2_example fresh_example), w'.
  split; [exact E|]. split; [exact Hcount|exact Hlimit].
Defined.
